(** * dada-poem-tool: a shallow embedding of [create_dada_poem.py] and [app.py]

    The development follows the two source files of the repository:

    - [create_dada_poem.py]: [extract_text], [load_spacy_pipeline],
      [detect_language], [extract_nouns_verbs_spacy],
      [extract_nouns_verbs_heuristic], [assemble_poem], [main];
    - [app.py]: the Flask handler [generate].

    Python values are modelled as follows.  A [str] is the list of its Unicode
    code points; an [int] is a [Z]; a Python list object lives in a store
    ([heap]) and is named by a location, so that in-place mutation
    ([random.shuffle]) and copying ([list(words)]) are visible; the global
    pseudo-random generator, the file system and the two output streams are
    further components of the program state.  Exceptions are results, and the
    state survives a raised exception. *)

From Stdlib Require Import ZArith NArith List Lia Permutation String Ascii.
From stdpp Require Import base option list gmap.

Local Open Scope Z_scope.

(** ** Python strings *)

(** A Python [str] is a sequence of code points. *)
Abbreviation char := N (only parsing).
Abbreviation str := (list N) (only parsing).

(** A list object is named by its location in the store. *)
Abbreviation loc := nat (only parsing).

(** The contents of a file: a sequence of bytes. *)
Abbreviation bytes := (list N) (only parsing).

Module Utf8.

(** Source literals are written as UTF-8 byte strings and decoded to code
    points, as CPython does when it reads the source file. *)
Fixpoint octets (s : string) : list N :=
  match s with
  | EmptyString => []
  | String a r => N_of_ascii a :: octets r
  end.

(** [decode pending need bs]: [pending] holds the bits of a code point of
    which [need] continuation bytes are still to come. *)
Fixpoint decode (pending : N) (need : nat) (bs : list N) : list N :=
  match bs with
  | [] => []
  | b :: r =>
      match need with
      | O =>
          if (b <? 128)%N then b :: decode 0%N 0%nat r
          else if (b <? 224)%N then decode (b - 192)%N 1%nat r
          else if (b <? 240)%N then decode (b - 224)%N 2%nat r
          else decode (b - 240)%N 3%nat r
      | S O => (pending * 64 + (b - 128))%N :: decode 0%N 0%nat r
      | S k => decode (pending * 64 + (b - 128))%N k r
      end
  end.

End Utf8.

Definition py_str (s : string) : str := Utf8.decode 0%N 0%nat (Utf8.octets s).

(** [len(s)] *)
Definition len {A} (l : list A) : Z := Z.of_nat (length l).

(** [sep.join(xs)] *)
Fixpoint join (sep : str) (xs : list str) : str :=
  match xs with
  | [] => []
  | [x] => x
  | x :: rest => x ++ sep ++ join sep rest
  end.

(** [l[i:j]] with Python's treatment of negative and out-of-range bounds. *)
Definition slice_bound (n i : Z) : Z :=
  let i := if i <? 0 then i + n else i in
  if i <? 0 then 0 else if n <? i then n else i.

Definition py_slice {A} (l : list A) (i j : Z) : list A :=
  let lo := slice_bound (len l) i in
  let hi := slice_bound (len l) j in
  take (Z.to_nat (hi - lo)) (drop (Z.to_nat lo) l).

(** ** Exceptions *)

Inductive exc : Type :=
| ZeroDivisionError
| IndexError
| RuntimeError (msg : str)
| SystemExit (code : Z)
| ForeignError (is_exception : bool) (msg : str)
  (* raised by a collaborator (Pillow, Tesseract, the OS); [is_exception]
     tells whether its class derives from [Exception] *)
| Dangling.
  (* not a Python exception: the answer of the model when a location names
     no object, which no Python program can observe *)

(** [isinstance(e, Exception)]: what [except Exception] catches. *)
Definition is_Exception (e : exc) : bool :=
  match e with
  | SystemExit _ => false
  | ForeignError b _ => b
  | Dangling => false
  | ZeroDivisionError | IndexError | RuntimeError _ => true
  end.

(** [str(e)], as interpolated by an f-string. *)
Definition exc_str (e : exc) : str :=
  match e with
  | ZeroDivisionError => py_str "integer division or modulo by zero"
  | IndexError => py_str "list index out of range"
  | RuntimeError m => m
  | SystemExit c => []
  | ForeignError _ m => m
  | Dangling => []
  end.

Inductive outcome (A : Type) : Type :=
| Returns (a : A)
| Raises (e : exc).
Arguments Returns {A} a.
Arguments Raises {A} e.

(** ** Program state *)

(** The state of the global generator of module [random]: an unbounded supply
    of raw draws and the number of draws consumed so far. *)
Record rng : Type := Rng { draws : nat -> nat; consumed : nat }.

Record world : Type := World {
  heap : gmap loc (list str);      (* list objects holding strings *)
  gen : rng;                            (* random's hidden generator *)
  fs : gmap str bytes;          (* files: path to contents *)
  stdout : list str;               (* lines printed to sys.stdout *)
  stderr : list str                (* lines printed to sys.stderr *)
}.

Definition set_heap (h : gmap loc (list str)) (w : world) : world :=
  World h (gen w) (fs w) (stdout w) (stderr w).
Definition set_gen (g : rng) (w : world) : world :=
  World (heap w) g (fs w) (stdout w) (stderr w).
Definition set_fs (f : gmap str bytes) (w : world) : world :=
  World (heap w) (gen w) f (stdout w) (stderr w).

(** Computations: a result or an exception, and the state afterwards. *)
Definition M (A : Type) : Type := world -> outcome A * world.

Definition ret {A} (a : A) : M A := fun w => (Returns a, w).
Definition raise {A} (e : exc) : M A := fun w => (Raises e, w).
Definition bind {A B} (m : M A) (k : A -> M B) : M B :=
  fun w => match m w with
           | (Returns a, w') => k a w'
           | (Raises e, w') => (Raises e, w')
           end.

Notation "x <- m ;; k" := (bind m (fun x => k))
  (at level 100, m at next level, right associativity).
Notation "m ;;; k" := (bind m (fun _ => k))
  (at level 100, right associativity).

(** [for _ in range(n): s = body(s)] *)
Fixpoint for_range {S : Type} (n : nat) (body : S -> M S) (s : S) : M S :=
  match n with
  | O => ret s
  | Datatypes.S n' => s' <- body s ;; for_range n' body s'
  end.

(** *** List objects *)

(** [list(xs)]: a new list object with the elements of [xs]. *)
Definition list_copy (xs : loc) : M loc := fun w =>
  match heap w !! xs with
  | Some l => let r := fresh (dom (heap w)) in
              (Returns r, set_heap (<[r := l]> (heap w)) w)
  | None => (Raises Dangling, w)
  end.

Definition read_list (xs : loc) : M (list str) := fun w =>
  match heap w !! xs with
  | Some l => (Returns l, w)
  | None => (Raises Dangling, w)
  end.

(** [xs[i]] for [0 <= i] *)
Definition getitem (xs : loc) (i : nat) : M str :=
  l <- read_list xs ;;
  match l !! i with
  | Some x => ret x
  | None => raise IndexError
  end.

(** [xs[i] = v] for [0 <= i] *)
Definition setitem (xs : loc) (i : nat) (v : str) : M unit := fun w =>
  match heap w !! xs with
  | Some l =>
      if decide (i < length l)%nat
      then (Returns tt, set_heap (<[xs := <[i := v]> l]> (heap w)) w)
      else (Raises IndexError, w)
  | None => (Raises Dangling, w)
  end.

(** *** [random] *)

(** [random._randbelow(n)] for [n > 0]: a value in [[0, n)]; one raw draw is
    consumed. *)
Definition randbelow (n : nat) : M nat := fun w =>
  let g := gen w in
  (Returns (draws g (consumed g) mod n)%nat,
   set_gen (Rng (draws g) (Datatypes.S (consumed g))) w).

(** [random.shuffle(x)] (CPython, [Lib/random.py]):
<<
    for i in reversed(range(1, len(x))):
        j = randbelow(i + 1)
        x[i], x[j] = x[j], x[i]
>> *)
Fixpoint shuffle_loop (x : loc) (i : nat) : M unit :=
  match i with
  | O => ret tt
  | Datatypes.S i' =>
      j <- randbelow (i + 1) ;;
      xj <- getitem x j ;;
      xi <- getitem x i ;;
      setitem x i xj ;;;
      setitem x j xi ;;;
      shuffle_loop x i'
  end.

Definition random_shuffle (x : loc) : M unit :=
  l <- read_list x ;;
  shuffle_loop x (length l - 1)%nat.

(** ** [assemble_poem] *)

Definition placeholder : str := py_str "(keine Wörter gefunden)".

(** The local variables of [assemble_poem] that are live in its loop. *)
Record locals : Type := Locals {
  words_list : loc;
  result : list str;
  segment_size : Z;
  idx : Z
}.

(** [a // b] on [int] *)
Definition floordiv (a b : Z) : M Z :=
  if b =? 0 then raise ZeroDivisionError else ret (a / b).

(** One pass through the body of [for _ in range(lines)]. *)
Definition poem_line (s : locals) : M locals :=
  l <- read_list (words_list s) ;;
  i <- (if len l <=? idx s
        then random_shuffle (words_list s) ;;; ret 0
        else ret (idx s)) ;;
  let end_idx := i + segment_size s in
  l <- read_list (words_list s) ;;
  let segment := py_slice l i end_idx in
  ret (Locals (words_list s)
              (result s ++ [join (py_str " ") segment])
              (segment_size s)
              end_idx).

Definition assemble_poem (words : loc) (lines : Z) : M (list str) :=
  words_list <- list_copy words ;;
  random_shuffle words_list ;;;
  l <- read_list words_list ;;
  if len l =? 0 then
    ret (replicate (Z.to_nat lines) placeholder)
  else
    q <- floordiv (len l) lines ;;
    let segment_size := Z.max 2 (Z.min 5 (if q =? 0 then 2 else q)) in
    s <- for_range (Z.to_nat lines) poem_line
                   (Locals words_list [] segment_size 0) ;;
    ret (result s).


(** ** The Unicode character database *)

(** [str.isalnum], [str.isalpha], [str.isdigit], [str.isupper] and
    [str.isspace] on a string of one character, and [str.lower], are answered
    by CPython's Unicode tables, which are not part of this repository: the
    development is parametric in them. *)
Class UnicodeDB : Type := {
  isalnum : char -> bool;
  isalpha : char -> bool;
  isdigit : char -> bool;
  isupper : char -> bool;
  isspace : char -> bool;
  lower : str -> str
}.

(** The tables on U+0000..U+00FF (Basic Latin and Latin-1 Supplement), where
    [lower] maps character by character.  The closed examples are evaluated
    in this instance and stay within that range; it answers "no" for every
    character beyond it. *)
Module Latin1.

Definition between (a b c : char) : bool := ((a <=? c) && (c <=? b))%N.

Definition upper_letter (c : char) : bool :=
  between 65 90 c || between 192 214 c || between 216 222 c.

Definition letter (c : char) : bool :=
  between 65 90 c || between 97 122 c
  || (c =? 170)%N || (c =? 181)%N || (c =? 186)%N
  || between 192 214 c || between 216 246 c || between 248 255 c.

Definition digit (c : char) : bool :=
  between 48 57 c || (c =? 178)%N || (c =? 179)%N || (c =? 185)%N.

Definition numeric (c : char) : bool := digit c || between 188 190 c.

Definition space (c : char) : bool :=
  between 9 13 c || between 28 32 c || (c =? 133)%N || (c =? 160)%N.

Definition lower_char (c : char) : char := if upper_letter c then (c + 32)%N else c.

Definition db : UnicodeDB := {|
  isalnum c := letter c || numeric c;
  isalpha := letter;
  isdigit := digit;
  isupper := upper_letter;
  isspace := space;
  lower := map lower_char
|}.

End Latin1.

Section Text.

Context {unicode : UnicodeDB}.

(** [s.isdigit()], [s.isalpha()]: every character qualifies and there is at
    least one. *)
Definition str_isdigit (s : str) : bool :=
  negb (bool_decide (s = [])) && forallb isdigit s.
Definition str_isalpha (s : str) : bool :=
  negb (bool_decide (s = [])) && forallb isalpha s.

(** [s.endswith(suffixes)] for a tuple of suffixes *)
Definition endswith (s : str) (suffixes : list str) : bool :=
  existsb (fun suf => bool_decide (suf `suffix_of` s)) suffixes.

(** [s.strip()] *)
Fixpoint lstrip (s : str) : str :=
  match s with
  | [] => []
  | c :: r => if isspace c then lstrip r else s
  end.
Definition strip (s : str) : str := rev (lstrip (rev (lstrip s))).

(** The class [\w] of module [re] on [str] patterns: the alphanumeric
    characters of [str.isalnum] and the underscore. *)
Definition is_word_char (c : char) : bool := isalnum c || (c =? 95)%N.

(** The maximal runs of characters of class [p] in [text], from left to
    right; [cur] is the run being read. *)
Fixpoint runs (p : char -> bool) (text : str) (cur : str) : list str :=
  match text with
  | [] => if bool_decide (cur = []) then [] else [cur]
  | c :: r =>
      if p c then runs p r (cur ++ [c])
      else (if bool_decide (cur = []) then [] else [cur]) ++ runs p r []
  end.

(** [re.findall(r"\b\w+\b", text)]: a match starts where a run of word
    characters starts and, [\w+] being greedy and [\b] holding at the end
    of the run only, extends over the whole run. *)
Definition findall_words (text : str) : list str :=
  runs is_word_char text [].

(** ** [detect_language] *)

Definition german_chars : gset char := list_to_set (py_str "äöüÄÖÜß").

Definition detect_language (text : str) : str :=
  if existsb (fun ch => bool_decide (ch ∈ german_chars)) text
  then py_str "de"
  else py_str "en".

(** ** [extract_nouns_verbs_heuristic] *)

Definition german_verb_endings : list str :=
  [py_str "en"; py_str "st"; py_str "t"; py_str "end"].

(** The body of [for token in tokens], as a function of the list [words]
    built so far. *)
Definition heuristic_body (words : list str) (token : str)
  : list str :=
  if (len token <=? 1) || str_isdigit token then words
  else if match token with c :: _ => isupper c | [] => false end
  then words ++ [token]
  else
    let lower := lower token in
    if endswith lower german_verb_endings then words ++ [token]
    else if str_isalpha token && (3 <? len token) then words ++ [token]
    else words.

Definition extract_nouns_verbs_heuristic (text : str) : list str :=
  let tokens := findall_words text in
  fold_left heuristic_body tokens [].

(** *** The rules in the words of the specification *)

(** The rules of the classifier in the words of the specification: whether
    a token is kept. *)
Definition first_is_upper (token : str) : bool :=
  match token with
  | c :: _ => isupper c
  | [] => false
  end.

Definition kept (token : str) : bool :=
  if (len token <=? 1) || str_isdigit token then false
  else if first_is_upper token then true
  else if endswith (lower token) [py_str "en"; py_str "st"; py_str "t"; py_str "end"]
       then true
  else str_isalpha token && (3 <? len token).

(** The tokens in the words of the specification: the runs of alphanumeric
    characters. *)
Definition alphanumeric_runs (text : str) : list str :=
  runs isalnum text [].

End Text.

(** ** External collaborators *)

(** A spaCy token, as far as the program reads it. *)
Record token : Type := Token {
  text : str;
  is_alpha : bool;
  pos_ : str
}.

(** Pillow, Tesseract, spaCy and [tempfile] are black boxes: what they
    answer is a parameter of the development. *)
Class Collaborators : Type := {
  image : Type;
  (** decoding the contents of a file, [PIL.Image.open] *)
  Image_decode : bytes -> outcome image;
  (** [pytesseract.image_to_string] *)
  image_to_string : image -> outcome str;
  Language : Type;
  (** [None] when [import spacy] failed, else [spacy.load] *)
  spacy : option (str -> outcome Language);
  (** [nlp(text)] *)
  nlp_call : Language -> str -> outcome (list token);
  (** the candidate names that [tempfile] tries, in order *)
  temp_candidates : nat -> str
}.

Section Program.

Context {unicode : UnicodeDB} {ext : Collaborators}.

Definition lift {A} (o : outcome A) : M A := fun w => (o, w).

(** [try: m  except Exception as exc: handler(exc)] *)
Definition try_except_Exception {A} (m : M A) (handler : exc -> M A) : M A :=
  fun w => match m w with
           | (Returns a, w') => (Returns a, w')
           | (Raises e, w') =>
               if is_Exception e then handler e w' else (Raises e, w')
           end.

(** [print(line)] and [print(line, file=sys.stderr)] *)
Definition print (line : str) : M unit := fun w =>
  (Returns tt, World (heap w) (gen w) (fs w) (stdout w ++ [line]) (stderr w)).
Definition print_stderr (line : str) : M unit := fun w =>
  (Returns tt, World (heap w) (gen w) (fs w) (stdout w) (stderr w ++ [line])).

(** [sys.exit(code)] *)
Definition sys_exit {A} (code : Z) : M A := raise (SystemExit code).

(** A new list object with the given elements. *)
Definition new_list (l : list str) : M loc := fun w =>
  let r := fresh (dom (heap w)) in
  (Returns r, set_heap (<[r := l]> (heap w)) w).

(** *** Files *)

Definition os_path_isfile (path : str) : M bool := fun w =>
  (Returns (bool_decide (is_Some (fs w !! path))), w).

(** [Image.open(path)] *)
Definition Image_open (path : str) : M image := fun w =>
  match fs w !! path with
  | Some contents => (Image_decode contents, w)
  | None => (Raises (ForeignError true (py_str "No such file or directory")), w)
  end.

(** [os.unlink(path)] *)
Definition os_unlink (path : str) : M unit := fun w =>
  match fs w !! path with
  | Some _ => (Returns tt, set_fs (delete path (fs w)) w)
  | None => (Raises (ForeignError true (py_str "No such file or directory")), w)
  end.

(** [tempfile.NamedTemporaryFile(delete=False, suffix=suffix)] (CPython,
    [tempfile._mkstemp_inner]): the first candidate name that does not
    exist is created, empty; after [TMP_MAX] candidates it gives up. *)
Definition TMP_MAX : nat := (100 * 100)%nat.

Fixpoint mkstemp_inner (suffix : str) (seq : nat) (tries : nat) : M str :=
  match tries with
  | O => raise (ForeignError true (py_str "No usable temporary file name found"))
  | S tries' =>
      fun w =>
        let name := temp_candidates seq ++ suffix in
        match fs w !! name with
        | Some _ => mkstemp_inner suffix (S seq) tries' w
        | None => (Returns name, set_fs (<[name := []]> (fs w)) w)
        end
  end.

Definition NamedTemporaryFile (suffix : str) : M str :=
  mkstemp_inner suffix 0 TMP_MAX.

(** An uploaded file of the request, and [file.save(path)]. *)
Record upload : Type := Upload { filename : str; contents : bytes }.

Definition file_save (file : upload) (path : str) : M unit := fun w =>
  (Returns tt, set_fs (<[path := contents file]> (fs w)) w).

(** ** [extract_text] *)

Definition extract_text (image_path : str) : M str :=
  try_except_Exception
    (img <- Image_open image_path ;;
     lift (image_to_string img))
    (fun exc =>
       raise (RuntimeError (py_str "Unable to open or process image '"
                            ++ image_path ++ py_str "': " ++ exc_str exc))).

(** ** [load_spacy_pipeline] *)

Definition model_names : gmap str str :=
  {[ py_str "de" := py_str "de_core_news_sm";
     py_str "en" := py_str "en_core_web_sm" ]}.

Definition load_spacy_pipeline (lang : str) : M (option Language) :=
  match spacy with
  | None => ret None
  | Some spacy_load =>
      match model_names !! lang with
      | None => ret None
      | Some model_name =>
          try_except_Exception
            (nlp <- lift (spacy_load model_name) ;; ret (Some nlp))
            (fun _ => ret None)
      end
  end.

(** ** [extract_nouns_verbs_spacy] *)

Definition content_tags : gset str :=
  {[ py_str "NOUN"; py_str "PROPN"; py_str "VERB"; py_str "AUX" ]}.

Definition spacy_body (words : list str) (t : token) : list str :=
  if negb (is_alpha t) then words
  else if bool_decide (pos_ t ∈ content_tags) then words ++ [text t]
  else words.

Definition extract_nouns_verbs_spacy (txt : str) (nlp : Language)
  : M (list str) :=
  doc <- lift (nlp_call nlp txt) ;;
  ret (fold_left spacy_body doc []).

(** ** [main]

    [image] and [lang] are the two attributes of the parsed arguments;
    [--lang] is restricted by [argparse] to ["de"] and ["en"]. *)
Definition main (image : str) (lang : option str) : M unit :=
  isfile <- os_path_isfile image ;;
  (if negb isfile then
     print_stderr (py_str "Error: file '" ++ image ++ py_str "' does not exist.") ;;;
     sys_exit 1
   else ret tt) ;;;
  txt <- extract_text image ;;
  (if bool_decide (strip txt = []) then
     print (py_str "No text detected in the image.") ;;;
     sys_exit 0
   else ret tt) ;;;
  let lang := match lang with
              | Some l => l
              | None => detect_language txt
              end in
  nlp <- load_spacy_pipeline lang ;;
  ws <- match nlp with
        | Some nlp => extract_nouns_verbs_spacy txt nlp
        | None => ret (extract_nouns_verbs_heuristic txt)
        end ;;
  (if bool_decide (ws = []) then
     print (py_str "Keine Substantive oder Verben gefunden (no nouns or verbs found).") ;;;
     sys_exit 0
   else ret tt) ;;;
  words <- new_list ws ;;
  poem_lines <- assemble_poem words 6 ;;
  print [] ;;;
  print (join [10%N] poem_lines).

(** ** [generate] ([app.py]) *)

Inductive response : Type :=
| JsonError (status : Z) (error : str)   (* [jsonify({'error': ...}), status] *)
| Page (poem : str).                     (* the rendered template *)

Definition generate (files : gmap str upload) : M response :=
  match files !! py_str "image" with
  | None => ret (JsonError 400 (py_str "Keine Datei hochgeladen."))
  | Some file =>
      if bool_decide (filename file = [])
      then ret (JsonError 400 (py_str "Keine Datei hochgeladen."))
      else
        (* with tempfile.NamedTemporaryFile(delete=False, ...) as tmp: *)
        tmp <- NamedTemporaryFile (py_str ".png") ;;
        file_save file tmp ;;;
        txt <- extract_text tmp ;;
        (* leaving the [with] block closes [tmp]; the file stays *)
        os_unlink tmp ;;;
        if bool_decide (strip txt = [])
        then ret (JsonError 400 (py_str "Kein Text im Bild gefunden."))
        else
          let lang := detect_language txt in
          nlp <- load_spacy_pipeline lang ;;
          ws <- match nlp with
                | Some nlp => extract_nouns_verbs_spacy txt nlp
                | None => ret (extract_nouns_verbs_heuristic txt)
                end ;;
          poem_lines <-
            (if bool_decide (ws = [])
             then ret (replicate 6 (py_str "Keine Substantive oder Verben gefunden"))
             else words <- new_list ws ;; assemble_poem words 6) ;;
          ret (Page (join [10%N] poem_lines))
  end.

(** The error that [extract_text] raises for the failure [cause]. *)
Definition processing_error (image_path : str) (cause : exc) : exc :=
  RuntimeError (py_str "Unable to open or process image '"
                ++ image_path ++ py_str "': " ++ exc_str cause).

(** A failure of [Image.open] or of the OCR with the exception [cause]. *)
Definition fails_with (path : str) (w : world) (cause : exc) : Prop :=
  fst (Image_open path w) = Raises cause
  \/ exists img, fst (Image_open path w) = Returns img
                 /\ image_to_string img = Raises cause.

(** What [extract_text] raises for the failure [cause]: the wrapped error
    when [except Exception] catches it, the failure itself otherwise. *)
Definition surfaced (path : str) (cause : exc) : exc :=
  if is_Exception cause then processing_error path cause else cause.

(** The state in which [generate] calls [extract_text]: the upload has been
    saved under the temporary name. *)
Definition saved (file : upload) (tmp : str) (w : world) : world :=
  set_fs (<[tmp := contents file]> (fs w)) w.

End Program.


(** ** A functional reading of [random.shuffle] and of the loop *)

(** [l[i], l[j] = l[j], l[i]] on the value of the list *)
Definition swap {A} (l : list A) (i j : nat) : list A :=
  match l !! j, l !! i with
  | Some xj, Some xi => <[j := xi]> (<[i := xj]> l)
  | _, _ => l
  end.

(** The list after the passes [i], [i-1], ..., [1] of the shuffle, the [k]-th
    raw draw being the next one. *)
Fixpoint shuffled_from {A} (d : nat -> nat) (k i : nat) (l : list A) : list A :=
  match i with
  | O => l
  | S i' => shuffled_from d (S k) i' (swap l i (d k mod (i + 1))%nat)
  end.

Definition shuffled {A} (g : rng) (l : list A) : list A :=
  shuffled_from (draws g) (consumed g) (length l - 1) l.

(** Shuffling [n] elements consumes [n - 1] draws. *)
Definition gen_after_shuffle (g : rng) (n : nat) : rng :=
  Rng (draws g) (consumed g + (n - 1)).

(** The list object, the generator, the cursor and the lines so far. *)
Record poem_state : Type := PoemState {
  pool : list str;
  pgen : rng;
  cursor : Z;
  written : list str
}.

Definition line_step (seg : Z) (s : poem_state) : poem_state :=
  let again := len (pool s) <=? cursor s in
  let l := if again then shuffled (pgen s) (pool s) else pool s in
  let g := if again then gen_after_shuffle (pgen s) (length (pool s)) else pgen s in
  let i := if again then 0 else cursor s in
  PoemState l g (i + seg) (written s ++ [join (py_str " ") (py_slice l i (i + seg))]).

Fixpoint lines_from (seg : Z) (n : nat) (s : poem_state) : poem_state :=
  match n with
  | O => s
  | S n' => lines_from seg n' (line_step seg s)
  end.

(** [floor(k/N)] clamped to the range [[2,5]], in the words of the
    specification. *)
Definition clamped_quotient (k n : Z) : Z :=
  let q := k / n in
  if q <? 2 then 2 else if 5 <? q then 5 else q.

(** The state in which the loop starts: the copy has been shuffled once. *)
Definition first_state (ws : list str) (g : rng) : poem_state :=
  PoemState (shuffled g ws) (gen_after_shuffle g (length ws)) 0 [].

(** [max(2, min(5, k // n or 2))] *)
Definition segment_size_of (k n : Z) : Z :=
  Z.max 2 (Z.min 5 (if k / n =? 0 then 2 else k / n)).

(** A line made of at most [seg] words, all of them taken from [ws]. *)
Definition line_of (ws : list str) (seg : Z) (line : str) : Prop :=
  exists segment : list str,
    line = join (py_str " ") segment
    /\ len segment <= seg
    /\ forall word, word ∈ segment -> word ∈ ws.

(** The invariant of the loop: the list object is a permutation of the
    input, the cursor is not negative, and every line written so far is made
    of at most [seg] words of the input. *)
Definition poem_inv (ws : list str) (seg : Z) (s : poem_state) : Prop :=
  pool s ≡ₚ ws /\ 0 <= cursor s /\ Forall (line_of ws seg) (written s).

(** Computations that leave the file system as it is. *)
Definition keeps_files {A} (m : M A) : Prop :=
  forall w, fs (snd (m w)) = fs w.

(** ** Notions for the further properties *)

(** A line made of at least one and at most [seg] words of [ws]. *)
Definition nonempty_line_of (ws : list str) (seg : Z) (line : str) : Prop :=
  exists segment : list str,
    line = join (py_str " ") segment
    /\ 1 <= len segment <= seg
    /\ forall word, word ∈ segment -> word ∈ ws.

(** The invariant of the loop for a non-empty list object. *)
Definition poem_inv_nonempty (ws : list str) (seg : Z) (s : poem_state) : Prop :=
  pool s ≡ₚ ws /\ 0 <= cursor s
  /\ Forall (nonempty_line_of ws seg) (written s).

(** The [j]-th run of [n] consecutive elements of [p]: [p[j*n : j*n + n]]. *)
Definition chunk (n : nat) (p : list str) (j : nat) : list str :=
  take n (drop (j * n) p).

(** A position of [text] where no run of class [p] continues: to the left
    of [after], and to the right of [before]. *)
Definition stops_at (p : char -> bool) (after : str) : Prop :=
  match after with
  | [] => True
  | c :: _ => p c = false
  end.

Definition starts_after (p : char -> bool) (before : str) : Prop :=
  match last before with
  | None => True
  | Some c => p c = false
  end.

(** [t] occurs in [text] as a maximal run of characters of class [p]. *)
Definition maximal_run (p : char -> bool) (text t : str) : Prop :=
  exists before after : str,
    text = before ++ t ++ after
    /\ t <> []
    /\ forallb p t = true
    /\ starts_after p before
    /\ stops_at p after.

(** The tokens of a spaCy document that [extract_nouns_verbs_spacy] keeps. *)
Definition content_token (t : token) : Prop :=
  is_alpha t = true /\ pos_ t ∈ content_tags.

#[global] Instance content_token_dec (t : token) : Decision (content_token t).
Proof. unfold content_token. apply _. Defined.

(** The words that [main] and [generate] hand on, given the answer [nlp] of
    [load_spacy_pipeline]: those of the pipeline when there is one, those of
    the heuristic otherwise. *)
Definition candidate_words {unicode : UnicodeDB} {ext : Collaborators}
    (nlp : option Language) (txt : str) : outcome (list str) :=
  match nlp with
  | Some nlp =>
      match nlp_call nlp txt with
      | Returns doc => Returns (text <$> filter content_token doc)
      | Raises e => Raises e
      end
  | None => Returns (extract_nouns_verbs_heuristic txt)
  end.

(** The state of [generate] after [os.unlink]. *)
Definition unlinked (file : upload) (tmp : str) (w : world) : world :=
  set_fs (delete tmp (fs (saved file tmp w))) (saved file tmp w).

(** The error message of [main] for a path that is no file. *)
Definition missing_file_message (image : str) : str :=
  py_str "Error: file '" ++ image ++ py_str "' does not exist.".

(** A world with one file. *)
Definition one_file_world (path : str) (data : bytes) : world :=
  World ∅ (Rng (fun k => k) 0) {[ path := data ]} [] [].

(** The language that [main] works with: [args.lang or detect_language(text)]. *)
Definition language_of (lang : option str) (txt : str) : str :=
  match lang with
  | Some l => l
  | None => detect_language txt
  end.

(** ** Closed instances for the examples *)

(** A toy instance of the collaborators for the closed examples: an image
    is its bytes, a file that starts with the byte 0 cannot be decoded,
    Tesseract fails on an image that starts with the byte 1 and otherwise
    reads the bytes as the text, spaCy is not installed, and the [k]-th
    candidate name of [tempfile] is ["/tmp/tmp"] followed by [k] letters
    "x". *)
Definition toy_collaborators : Collaborators := {|
  image := str;
  Image_decode c :=
    match c with
    | 0%N :: _ => Raises (ForeignError true (py_str "cannot identify image file"))
    | _ => Returns c
    end;
  image_to_string img :=
    match img with
    | 1%N :: _ => Raises (ForeignError true (py_str "tesseract is not installed"))
    | _ => Returns img
    end;
  Language := unit;
  spacy := None;
  nlp_call _ _ := Returns [];
  temp_candidates k := py_str "/tmp/tmp" ++ replicate k 120%N
|}.

(** Collaborators whose OCR is interrupted from the keyboard: the failure is
    no [Exception]. *)
Definition interrupted_collaborators : Collaborators := {|
  image := bytes;
  Image_decode c := Returns c;
  image_to_string _ := Raises (ForeignError false (py_str "KeyboardInterrupt"));
  Language := unit;
  spacy := None;
  nlp_call _ _ := Returns [];
  temp_candidates k := py_str "/tmp/tmp" ++ replicate k 120%N
|}.

(** A state for the closed examples: one list object, at location 0, and a
    generator whose [k]-th raw draw is [k]. *)
Definition sample_world (ws : list str) : world :=
  World {[ 0%nat := ws ]} (Rng (fun k => k) 0) ∅ [] [].

(** A world for the closed examples: no list object, no file. *)
Definition empty_world : world := World ∅ (Rng (fun k => k) 0) ∅ [] [].

Definition toy_request (data : bytes) : gmap str upload :=
  {[ py_str "image" := Upload (py_str "shot.png") data ]}.

(** * Properties *)

(** ** The monad *)

Lemma bind_returns {A B} (m : M A) (k : A -> M B) w a w' :
  m w = (Returns a, w') -> bind m k w = k a w'.
Proof. intros H. unfold bind. now rewrite H. Qed.

Lemma bind_raises {A B} (m : M A) (k : A -> M B) w e w' :
  m w = (Raises e, w') -> bind m k w = (Raises e, w').
Proof. intros H. unfold bind. now rewrite H. Qed.

(** ** The shuffle *)

Lemma swap_length {A} (l : list A) i j : length (swap l i j) = length l.
Proof.
  unfold swap. destruct (l !! j), (l !! i); trivial.
  now rewrite !length_insert.
Qed.

Lemma insert_head_perm {A} (l : list A) j x y :
  l !! j = Some y -> y :: <[j := x]> l ≡ₚ x :: l.
Proof.
  revert j. induction l as [|a l IH]; intros [|j] Hj; simpl in *; try discriminate.
  - injection Hj as ->. apply perm_swap.
  - rewrite (perm_swap a y). rewrite (IH j Hj). apply perm_swap.
Qed.

Lemma swap_perm {A} (l : list A) i j : swap l i j ≡ₚ l.
Proof.
  unfold swap.
  destruct (l !! j) as [xj|] eqn:Hj; [|reflexivity].
  destruct (l !! i) as [xi|] eqn:Hi; [|reflexivity].
  revert i j Hi Hj. induction l as [|a l IH]; intros [|i] [|j] Hi Hj;
    simpl in *; try discriminate.
  - injection Hi as ->. injection Hj as ->. reflexivity.
  - injection Hi as ->. now apply insert_head_perm.
  - injection Hj as ->. now apply insert_head_perm.
  - constructor. now apply IH.
Qed.

Lemma shuffled_from_perm {A} d k i (l : list A) : shuffled_from d k i l ≡ₚ l.
Proof.
  revert k l. induction i as [|i IH]; intros k l; simpl; [reflexivity|].
  rewrite IH. apply swap_perm.
Qed.

Lemma shuffled_perm {A} g (l : list A) : shuffled g l ≡ₚ l.
Proof. apply shuffled_from_perm. Qed.

Lemma shuffled_length {A} g (l : list A) : length (shuffled g l) = length l.
Proof. apply Permutation_length, shuffled_perm. Qed.

(** What each primitive does on a state whose list object [x] holds [l]. *)

Lemma read_list_run x l h g f o e :
  h !! x = Some l ->
  read_list x (World h g f o e) = (Returns l, World h g f o e).
Proof. intros Hx. unfold read_list; cbn [heap]. now rewrite Hx. Qed.

Lemma getitem_run x l i v h g f o e :
  h !! x = Some l -> l !! i = Some v ->
  getitem x i (World h g f o e) = (Returns v, World h g f o e).
Proof.
  intros Hx Hi. unfold getitem.
  rewrite (bind_returns _ _ _ _ _ (read_list_run x l h g f o e Hx)).
  now rewrite Hi.
Qed.

Lemma setitem_run x l i v h g f o e :
  h !! x = Some l -> (i < length l)%nat ->
  setitem x i v (World h g f o e)
  = (Returns tt, World (<[x := <[i := v]> l]> h) g f o e).
Proof.
  intros Hx Hi. unfold setitem; cbn [heap]. rewrite Hx.
  now rewrite decide_True by assumption.
Qed.

Lemma randbelow_run n h d k f o e :
  randbelow n (World h (Rng d k) f o e)
  = (Returns (d k mod n)%nat, World h (Rng d (S k)) f o e).
Proof. reflexivity. Qed.

Lemma shuffle_loop_run x i : forall l h d k f o e,
  h !! x = Some l -> (i < length l)%nat ->
  shuffle_loop x i (World h (Rng d k) f o e)
  = (Returns tt,
     World (<[x := shuffled_from d k i l]> h) (Rng d (k + i)) f o e).
Proof.
  induction i as [|i IH]; intros l h d k f o e Hx Hi.
  - simpl. unfold ret. rewrite insert_id by assumption.
    now rewrite Nat.add_0_r.
  - assert (Hj : (d k mod (S i + 1) < length l)%nat).
    { pose proof (Nat.mod_upper_bound (d k) (S i + 1)). lia. }
    destruct (lookup_lt_is_Some_2 l _ Hj) as [xj Hxj].
    destruct (lookup_lt_is_Some_2 l _ Hi) as [xi Hxi].
    cbn [shuffle_loop shuffled_from].
    rewrite (bind_returns _ _ _ _ _ (randbelow_run _ h d k f o e)).
    rewrite (bind_returns _ _ _ _ _ (getitem_run x l _ xj h _ f o e Hx Hxj)).
    rewrite (bind_returns _ _ _ _ _ (getitem_run x l _ xi h _ f o e Hx Hxi)).
    rewrite (bind_returns _ _ _ _ _ (setitem_run x l _ xj h _ f o e Hx Hi)).
    erewrite bind_returns;
      [|apply setitem_run; [apply lookup_insert_eq|now rewrite length_insert]].
    rewrite insert_insert_eq.
    rewrite (IH (swap l (S i) (d k mod (S i + 1))%nat)).
    + rewrite insert_insert_eq.
      now replace (S k + i)%nat with (k + S i)%nat by lia.
    + unfold swap. rewrite Hxj, Hxi. apply lookup_insert_eq.
    + rewrite swap_length. lia.
Qed.

Lemma random_shuffle_run x l h g f o e :
  h !! x = Some l ->
  random_shuffle x (World h g f o e)
  = (Returns tt,
     World (<[x := shuffled g l]> h) (gen_after_shuffle g (length l)) f o e).
Proof.
  intros Hx. destruct g as [d k]. unfold random_shuffle.
  rewrite (bind_returns _ _ _ _ _ (read_list_run x l h _ f o e Hx)).
  destruct l as [|a l].
  - cbn. unfold ret, gen_after_shuffle, shuffled. cbn.
    rewrite insert_id by assumption. now rewrite Nat.add_0_r.
  - rewrite (shuffle_loop_run x _ (a :: l)); [reflexivity|assumption|].
    simpl. lia.
Qed.

(** ** The loop of [assemble_poem] *)

Lemma poem_line_run x l h g f o e res seg i :
  h !! x = Some l ->
  poem_line (Locals x res seg i) (World h g f o e)
  = (Returns (Locals x (written (line_step seg (PoemState l g i res))) seg
                     (cursor (line_step seg (PoemState l g i res)))),
     World (<[x := pool (line_step seg (PoemState l g i res))]> h)
           (pgen (line_step seg (PoemState l g i res))) f o e).
Proof.
  intros Hx. unfold poem_line, line_step.
  cbn [words_list result segment_size idx pool pgen cursor written].
  rewrite (bind_returns _ _ _ _ _ (read_list_run x l h g f o e Hx)).
  destruct (len l <=? i) eqn:Hfull.
  - erewrite bind_returns.
    2:{ erewrite bind_returns by (apply random_shuffle_run; eassumption).
        reflexivity. }
    erewrite bind_returns by (apply read_list_run, lookup_insert_eq).
    reflexivity.
  - erewrite bind_returns by reflexivity.
    rewrite (bind_returns _ _ _ _ _ (read_list_run x l h g f o e Hx)).
    unfold ret. now rewrite insert_id by assumption.
Qed.

Lemma for_range_poem_line n : forall x l h g f o e res seg i,
  h !! x = Some l ->
  for_range n poem_line (Locals x res seg i) (World h g f o e)
  = (Returns (Locals x (written (lines_from seg n (PoemState l g i res))) seg
                     (cursor (lines_from seg n (PoemState l g i res)))),
     World (<[x := pool (lines_from seg n (PoemState l g i res))]> h)
           (pgen (lines_from seg n (PoemState l g i res))) f o e).
Proof.
  induction n as [|n IH]; intros x l h g f o e res seg i Hx.
  - cbn. unfold ret. now rewrite insert_id by assumption.
  - cbn [for_range lines_from].
    rewrite (bind_returns _ _ _ _ _ (poem_line_run x l h g f o e res seg i Hx)).
    set (s := line_step seg (PoemState l g i res)).
    rewrite (IH x (pool s)) by apply lookup_insert_eq.
    rewrite insert_insert_eq. now destruct s.
Qed.

Lemma list_copy_run words ws h g f o e :
  h !! words = Some ws ->
  list_copy words (World h g f o e)
  = (Returns (fresh (dom h)), World (<[fresh (dom h) := ws]> h) g f o e).
Proof. intros Hw. unfold list_copy; cbn [heap]. now rewrite Hw. Qed.

Lemma assemble_poem_prologue words ws lines h g f o e :
  h !! words = Some ws ->
  assemble_poem words lines (World h g f o e)
  = (if len (shuffled g ws) =? 0 then
       ret (replicate (Z.to_nat lines) placeholder)
     else
       q <- floordiv (len (shuffled g ws)) lines ;;
       let segment_size := Z.max 2 (Z.min 5 (if q =? 0 then 2 else q)) in
       s <- for_range (Z.to_nat lines) poem_line
                      (Locals (fresh (dom h)) [] segment_size 0) ;;
       ret (result s))
      (World (<[fresh (dom h) := shuffled g ws]> h)
             (gen_after_shuffle g (length ws)) f o e).
Proof.
  intros Hw. unfold assemble_poem.
  rewrite (bind_returns _ _ _ _ _ (list_copy_run words ws h g f o e Hw)).
  erewrite bind_returns by (apply random_shuffle_run, lookup_insert_eq).
  rewrite insert_insert_eq.
  erewrite bind_returns by (apply read_list_run, lookup_insert_eq).
  reflexivity.
Qed.

Lemma gen_after_shuffle_nil g : gen_after_shuffle g 0 = g.
Proof. destruct g as [d k]. unfold gen_after_shuffle. simpl. now rewrite Nat.add_0_r. Qed.

Lemma assemble_poem_empty words lines h g f o e :
  h !! words = Some [] ->
  assemble_poem words lines (World h g f o e)
  = (Returns (replicate (Z.to_nat lines) placeholder),
     World (<[fresh (dom h) := []]> h) g f o e).
Proof.
  intros Hw. rewrite (assemble_poem_prologue words [] lines h g f o e Hw).
  change (shuffled g []) with (@nil str).
  change (len (@nil str) =? 0) with true.
  change (length (@nil str)) with 0%nat.
  now rewrite gen_after_shuffle_nil.
Qed.

Lemma assemble_poem_zero_lines words ws h g f o e :
  h !! words = Some ws -> ws <> [] ->
  assemble_poem words 0 (World h g f o e)
  = (Raises ZeroDivisionError,
     World (<[fresh (dom h) := shuffled g ws]> h)
           (gen_after_shuffle g (length ws)) f o e).
Proof.
  intros Hw Hne. rewrite (assemble_poem_prologue words ws 0 h g f o e Hw).
  assert ((len (shuffled g ws) =? 0) = false) as ->.
  { apply Z.eqb_neq. unfold len. rewrite shuffled_length.
    destruct ws; [congruence|simpl; lia]. }
  reflexivity.
Qed.

Lemma assemble_poem_run words ws lines h g f o e :
  h !! words = Some ws -> ws <> [] -> lines <> 0 ->
  assemble_poem words lines (World h g f o e)
  = (Returns (written (lines_from (segment_size_of (len ws) lines)
                                  (Z.to_nat lines) (first_state ws g))),
     World (<[fresh (dom h) :=
              pool (lines_from (segment_size_of (len ws) lines)
                               (Z.to_nat lines) (first_state ws g))]> h)
           (pgen (lines_from (segment_size_of (len ws) lines)
                             (Z.to_nat lines) (first_state ws g))) f o e).
Proof.
  intros Hw Hne Hlines.
  rewrite (assemble_poem_prologue words ws lines h g f o e Hw).
  assert (Hlen : len (shuffled g ws) = len ws).
  { unfold len. now rewrite shuffled_length. }
  rewrite Hlen.
  assert ((len ws =? 0) = false) as ->.
  { apply Z.eqb_neq. unfold len. destruct ws; [congruence|simpl; lia]. }
  unfold floordiv. rewrite (proj2 (Z.eqb_neq lines 0) Hlines).
  erewrite bind_returns by reflexivity.
  cbv zeta.
  erewrite bind_returns by (apply for_range_poem_line, lookup_insert_eq).
  unfold ret. cbn [result]. now rewrite insert_insert_eq.
Qed.

(** ** What the loop writes *)

Lemma py_slice_sublist {A} (l : list A) i j : py_slice l i j `sublist_of` l.
Proof.
  unfold py_slice. etransitivity; [apply sublist_take|apply sublist_drop].
Qed.

Lemma slice_bound_nonneg n i : 0 <= n -> 0 <= i -> slice_bound n i = Z.min i n.
Proof.
  intros Hn Hi. unfold slice_bound.
  destruct (Z.ltb_spec i 0); [lia|]. cbv beta iota zeta.
  destruct (Z.ltb_spec i 0); [lia|].
  destruct (Z.ltb_spec n i); lia.
Qed.

Lemma py_slice_nonneg {A} (l : list A) i j :
  0 <= i -> 0 <= j ->
  py_slice l i j
  = take (Z.to_nat (Z.min j (len l) - Z.min i (len l)))
         (drop (Z.to_nat (Z.min i (len l))) l).
Proof.
  intros Hi Hj. unfold py_slice.
  rewrite !slice_bound_nonneg by (unfold len; lia). reflexivity.
Qed.

Lemma py_slice_length {A} (l : list A) i seg :
  0 <= i -> 0 <= seg -> len (py_slice l i (i + seg)) <= seg.
Proof.
  intros Hi Hseg. rewrite py_slice_nonneg by lia.
  unfold len. rewrite length_take. lia.
Qed.

Lemma lines_from_app seg n : forall s,
  written (lines_from seg n s)
  = written s ++ written (lines_from seg n
                            (PoemState (pool s) (pgen s) (cursor s) [])).
Proof.
  induction n as [|n IH]; intros s; cbn [lines_from].
  - cbn. now rewrite app_nil_r.
  - rewrite IH. rewrite (IH (line_step _ (PoemState _ _ _ []))).
    unfold line_step; cbn [pool pgen cursor written].
    now rewrite app_assoc.
Qed.

Lemma lines_from_count seg n : forall s,
  length (written (lines_from seg n s)) = (length (written s) + n)%nat.
Proof.
  induction n as [|n IH]; intros s; cbn [lines_from]; [lia|].
  rewrite IH. unfold line_step; cbn [written]. rewrite length_app. simpl. lia.
Qed.

Lemma line_step_inv ws seg s :
  0 <= seg -> poem_inv ws seg s -> poem_inv ws seg (line_step seg s).
Proof.
  intros Hseg (Hperm & Hcur & Hlines). unfold line_step, poem_inv.
  cbn [pool pgen cursor written].
  destruct (len (pool s) <=? cursor s).
  - split; [now rewrite shuffled_perm|]. split; [lia|].
    apply Forall_app. split; [assumption|]. constructor; [|constructor].
    exists (py_slice (shuffled (pgen s) (pool s)) 0 (0 + seg)).
    split; [reflexivity|]. split; [apply py_slice_length; lia|].
    intros word Hword.
    apply (elem_of_Permutation_proper word _ _ Hperm).
    apply (elem_of_Permutation_proper word _ _ (shuffled_perm (pgen s) (pool s))).
    eapply elem_of_sublist; [exact Hword|apply py_slice_sublist].
  - split; [assumption|]. split; [lia|].
    apply Forall_app. split; [assumption|]. constructor; [|constructor].
    exists (py_slice (pool s) (cursor s) (cursor s + seg)).
    split; [reflexivity|]. split; [now apply py_slice_length|].
    intros word Hword.
    apply (elem_of_Permutation_proper word _ _ Hperm).
    eapply elem_of_sublist; [exact Hword|apply py_slice_sublist].
Qed.

Lemma lines_from_inv ws seg n : forall s,
  0 <= seg -> poem_inv ws seg s -> poem_inv ws seg (lines_from seg n s).
Proof.
  induction n as [|n IH]; intros s Hseg Hinv; cbn [lines_from]; [assumption|].
  apply IH; [assumption|]. now apply line_step_inv.
Qed.

Lemma first_state_inv ws seg g : poem_inv ws seg (first_state ws g).
Proof.
  unfold poem_inv, first_state; cbn [pool cursor written].
  split; [apply shuffled_perm|]. split; [lia|constructor].
Qed.

Lemma segment_size_of_bounds k n : 2 <= segment_size_of k n <= 5.
Proof. unfold segment_size_of. lia. Qed.

Lemma segment_size_of_clamped k n : segment_size_of k n = clamped_quotient k n.
Proof.
  unfold segment_size_of, clamped_quotient.
  destruct (Z.eqb_spec (k / n) 0) as [->|Hq]; [reflexivity|].
  destruct (Z.ltb_spec (k / n) 2), (Z.ltb_spec 5 (k / n)); lia.
Qed.

(** ** [assemble_poem]: the number of lines *)

(** C1.  For every word list, of any size, the empty one included, and every
    positive line count [lines], [assemble_poem] returns, and what it returns
    is a list of exactly [lines] lines. *)
Theorem assemble_poem_line_count words ws lines w :
  heap w !! words = Some ws -> 0 < lines ->
  exists res w', assemble_poem words lines w = (Returns res, w')
                 /\ len res = lines.
Proof.
  destruct w as [h g f o e]; cbn [heap]. intros Hw Hlines.
  destruct ws as [|a ws].
  - rewrite (assemble_poem_empty words lines h g f o e Hw).
    do 2 eexists. split; [reflexivity|].
    unfold len. rewrite length_replicate. lia.
  - rewrite (assemble_poem_run words (a :: ws) lines h g f o e Hw)
      by (congruence || lia).
    do 2 eexists. split; [reflexivity|].
    unfold len. rewrite lines_from_count. cbn [first_state written length]. lia.
Qed.

Lemma assemble_poem_line_count_witness :
  exists res w', assemble_poem 0%nat 6 (sample_world [py_str "Haus"])
                 = (Returns res, w')
                 /\ len res = 6.
Proof.
  apply (assemble_poem_line_count 0%nat [py_str "Haus"] 6
           (sample_world [py_str "Haus"])).
  - reflexivity.
  - lia.
Defined.

(** ** [assemble_poem]: the empty word list *)

(** C2, as the specification states it, fails: the placeholder of the code
    is the German line, not ["(no words found)"]. *)
Lemma empty_pool_placeholder_differs :
  fst (assemble_poem 0%nat 1 (sample_world []))
  = Returns [py_str "(keine Wörter gefunden)"]
  /\ fst (assemble_poem 0%nat 1 (sample_world []))
     <> Returns [py_str "(no words found)"].
Proof. split; [reflexivity|]. vm_compute. discriminate. Qed.

(** C2, amended.  On an empty word list [assemble_poem] returns
    [max(lines, 0)] copies of the line ["(keine Wörter gefunden)"]; it draws
    no random number, divides nothing and raises nothing, whatever [lines]
    is, and the only change of the state is the empty copy of the list. *)
Theorem assemble_poem_empty_placeholder words lines w :
  heap w !! words = Some [] ->
  assemble_poem words lines w
  = (Returns (replicate (Z.to_nat lines) (py_str "(keine Wörter gefunden)")),
     set_heap (<[fresh (dom (heap w)) := []]> (heap w)) w).
Proof.
  destruct w as [h g f o e]; cbn [heap]. intros Hw.
  now rewrite (assemble_poem_empty words lines h g f o e Hw).
Qed.

Lemma assemble_poem_empty_placeholder_witness :
  assemble_poem 0%nat 6 (sample_world [])
  = (Returns (replicate (Z.to_nat 6) (py_str "(keine Wörter gefunden)")),
     set_heap (<[fresh (dom (heap (sample_world []))) := []]>
                 (heap (sample_world []))) (sample_world [])).
Proof.
  apply (assemble_poem_empty_placeholder 0%nat 6 (sample_world [])).
  reflexivity.
Defined.

(** ** [assemble_poem]: the segment size *)

(** C3.  For a non-empty word list of size [k] and a line count [lines]
    other than zero, the loop of [assemble_poem] starts with [segment_size]
    set to [floor(k/lines)] clamped to [[2,5]] (a quotient of 0 gives 2), so
    that [2 <= segment_size <= 5]; and after any number of passes through
    the loop body, reshuffles included, [segment_size] still has that
    value. *)
Theorem segment_size_fixed words ws lines h g f o e :
  h !! words = Some ws -> ws <> [] -> lines <> 0 ->
  let seg := clamped_quotient (len ws) lines in
  let start := Locals (fresh (dom h)) [] seg 0 in
  let w1 := World (<[fresh (dom h) := shuffled g ws]> h)
                  (gen_after_shuffle g (length ws)) f o e in
  2 <= seg <= 5
  /\ assemble_poem words lines (World h g f o e)
     = (s <- for_range (Z.to_nat lines) poem_line start ;; ret (result s)) w1
  /\ forall passes, exists s w',
       for_range passes poem_line start w1 = (Returns s, w')
       /\ segment_size s = seg.
Proof.
  intros Hw Hne Hlines seg start w1.
  assert (Hseg : segment_size_of (len ws) lines = seg)
    by apply segment_size_of_clamped.
  split; [rewrite <- Hseg; apply segment_size_of_bounds|]. split.
  - rewrite (assemble_poem_prologue words ws lines h g f o e Hw).
    assert (Hlen : len (shuffled g ws) = len ws).
    { unfold len. now rewrite shuffled_length. }
    rewrite Hlen.
    assert ((len ws =? 0) = false) as ->.
    { apply Z.eqb_neq. unfold len. destruct ws; [congruence|simpl; lia]. }
    unfold floordiv. rewrite (proj2 (Z.eqb_neq lines 0) Hlines).
    erewrite bind_returns by reflexivity. cbv zeta.
    fold (segment_size_of (len ws) lines). now rewrite Hseg.
  - intros passes. do 2 eexists. split.
    + apply for_range_poem_line. apply lookup_insert_eq.
    + reflexivity.
Qed.

Lemma segment_size_fixed_witness :
  let ws := [py_str "Haus"; py_str "Baum"; py_str "laufen"] in
  let seg := clamped_quotient (len ws) 6 in
  let start := Locals (fresh (dom ({[ 0%nat := ws ]} : gmap nat (list str))))
                      [] seg 0 in
  let w1 := World (<[fresh (dom ({[ 0%nat := ws ]} : gmap nat (list str)))
                     := shuffled (Rng (fun k => k) 0) ws]> {[ 0%nat := ws ]})
                  (gen_after_shuffle (Rng (fun k => k) 0) (length ws)) ∅ [] [] in
  2 <= seg <= 5
  /\ assemble_poem 0%nat 6 (World {[ 0%nat := ws ]} (Rng (fun k => k) 0) ∅ [] [])
     = (s <- for_range (Z.to_nat 6) poem_line start ;; ret (result s)) w1
  /\ forall passes, exists s w',
       for_range passes poem_line start w1 = (Returns s, w')
       /\ segment_size s = seg.
Proof.
  apply (segment_size_fixed 0%nat
           [py_str "Haus"; py_str "Baum"; py_str "laufen"] 6
           {[ 0%nat := [py_str "Haus"; py_str "Baum"; py_str "laufen"] ]}
           (Rng (fun k => k) 0) ∅ [] []).
  - reflexivity.
  - discriminate.
  - lia.
Defined.

(** ** [assemble_poem]: where the words come from *)

(** C4, as the specification states it, fails on the empty word list: the
    line returned is the placeholder, which is not made of words of the
    input. *)
Lemma empty_pool_line_not_from_pool :
  exists line,
    fst (assemble_poem 0%nat 1 (sample_world [])) = Returns [line]
    /\ ~ (exists segment : list str,
            line = join (py_str " ") segment
            /\ forall word, word ∈ segment -> word ∈ @nil str).
Proof.
  exists (py_str "(keine Wörter gefunden)"). split; [reflexivity|].
  intros (segment & Hline & Hwords). destruct segment as [|a segment].
  - vm_compute in Hline. discriminate.
  - specialize (Hwords a (list_elem_of_here _ _)). inversion Hwords.
Qed.

(** C4, amended.  For every non-empty word list and every outcome of the
    shuffles, every line that [assemble_poem] returns is the join, by single
    spaces, of at most [segment_size] words that are all elements of the
    input list; and it does return when [lines] is not zero. *)
Theorem assemble_poem_words_from_pool words ws lines w :
  heap w !! words = Some ws -> ws <> [] ->
  (forall res w',
      assemble_poem words lines w = (Returns res, w') ->
      forall line, line ∈ res ->
                   line_of ws (clamped_quotient (len ws) lines) line)
  /\ (lines <> 0 ->
      exists res w', assemble_poem words lines w = (Returns res, w')).
Proof.
  destruct w as [h g f o e]; cbn [heap]. intros Hw Hne.
  destruct (Z.eq_dec lines 0) as [->|Hlines].
  - split; [|congruence]. intros res w'.
    rewrite (assemble_poem_zero_lines words ws h g f o e Hw Hne).
    discriminate.
  - rewrite (assemble_poem_run words ws lines h g f o e Hw Hne Hlines).
    split; [|intros _; eauto].
    intros res w' Hrun line Hline. injection Hrun as <- _.
    rewrite <- segment_size_of_clamped.
    pose proof (segment_size_of_bounds (len ws) lines) as Hseg.
    destruct (lines_from_inv ws (segment_size_of (len ws) lines)
                (Z.to_nat lines) (first_state ws g)) as (_ & _ & Hall);
      [lia|apply first_state_inv|].
    rewrite Forall_forall in Hall. now apply Hall.
Qed.

Lemma assemble_poem_words_from_pool_witness :
  let ws := [py_str "Haus"; py_str "Baum"; py_str "laufen"] in
  (forall res w',
      assemble_poem 0%nat 6 (sample_world ws) = (Returns res, w') ->
      forall line, line ∈ res ->
                   line_of ws (clamped_quotient (len ws) 6) line)
  /\ (6 <> 0 ->
      exists res w', assemble_poem 0%nat 6 (sample_world ws) = (Returns res, w')).
Proof.
  apply (assemble_poem_words_from_pool 0%nat
           [py_str "Haus"; py_str "Baum"; py_str "laufen"] 6
           (sample_world [py_str "Haus"; py_str "Baum"; py_str "laufen"])).
  - reflexivity.
  - discriminate.
Defined.

(** ** [assemble_poem]: the caller's list *)

Lemma fresh_location_ne (h : gmap nat (list str)) x v :
  h !! x = Some v -> fresh (dom h) <> x.
Proof.
  intros Hx Heq. apply (is_fresh (dom h)). rewrite Heq.
  apply elem_of_dom. eauto.
Qed.

(** C10.  [assemble_poem] shuffles a copy: after the call, whether it
    returned or raised, the list object it was given holds the same elements
    in the same order, and so does every other list object that existed
    before the call. *)
Theorem assemble_poem_preserves_input words ws lines w :
  heap w !! words = Some ws ->
  heap (snd (assemble_poem words lines w)) !! words = Some ws
  /\ forall x v, heap w !! x = Some v ->
                 heap (snd (assemble_poem words lines w)) !! x = Some v.
Proof.
  destruct w as [h g f o e]; cbn [heap]. intros Hw.
  assert (Hframe : forall l x v, h !! x = Some v ->
                                 <[fresh (dom h) := l]> h !! x = Some v).
  { intros l x v Hx. rewrite lookup_insert_ne; [assumption|].
    eapply fresh_location_ne; eassumption. }
  assert (Hall : forall x v, h !! x = Some v ->
            heap (snd (assemble_poem words lines (World h g f o e))) !! x
            = Some v); [|split; [apply Hall|]; assumption].
  intros x v Hx. destruct ws as [|a ws].
  - rewrite (assemble_poem_empty words lines h g f o e Hw). now apply Hframe.
  - destruct (Z.eq_dec lines 0) as [->|Hlines].
    + rewrite (assemble_poem_zero_lines words (a :: ws) h g f o e Hw)
        by congruence.
      now apply Hframe.
    + rewrite (assemble_poem_run words (a :: ws) lines h g f o e Hw)
        by congruence.
      now apply Hframe.
Qed.

Lemma assemble_poem_preserves_input_witness :
  let ws := [py_str "Haus"; py_str "Baum"; py_str "laufen"] in
  heap (snd (assemble_poem 0%nat 6 (sample_world ws))) !! 0%nat = Some ws
  /\ forall x v, heap (sample_world ws) !! x = Some v ->
                 heap (snd (assemble_poem 0%nat 6 (sample_world ws))) !! x
                 = Some v.
Proof.
  apply (assemble_poem_preserves_input 0%nat
           [py_str "Haus"; py_str "Baum"; py_str "laufen"] 6
           (sample_world [py_str "Haus"; py_str "Baum"; py_str "laufen"])).
  reflexivity.
Defined.

(** ** [assemble_poem]: three words, six lines *)

Section ThreeWords.

Variables (l : list str) (g : rng) (out : list str).
Hypothesis three : length l = 3%nat.

Lemma len_three : len l = 3.
Proof. unfold len. now rewrite three. Qed.

Lemma slice_first_two : py_slice l 0 (0 + 2) = take 2 l.
Proof.
  rewrite py_slice_nonneg by lia. rewrite len_three. reflexivity.
Qed.

Lemma slice_last_one : py_slice l 2 (2 + 2) = drop 2 l.
Proof.
  rewrite py_slice_nonneg by lia. rewrite len_three.
  change (Z.to_nat (Z.min (2 + 2) 3 - Z.min 2 3)) with 1%nat.
  change (Z.to_nat (Z.min 2 3)) with 2%nat.
  apply take_ge. rewrite length_drop. lia.
Qed.

(** Cursor 0: two words are taken. *)
Lemma line_step_at_0 :
  line_step 2 (PoemState l g 0 out)
  = PoemState l g 2 (out ++ [join (py_str " ") (take 2 l)]).
Proof.
  unfold line_step; cbn [pool pgen cursor written]. rewrite len_three.
  change (3 <=? 0) with false. cbv iota. now rewrite slice_first_two.
Qed.

(** Cursor 2: the end, 3, is not reached, nothing is reshuffled and the one
    word left is taken. *)
Lemma line_step_at_2 :
  line_step 2 (PoemState l g 2 out)
  = PoemState l g 4 (out ++ [join (py_str " ") (drop 2 l)]).
Proof.
  unfold line_step; cbn [pool pgen cursor written]. rewrite len_three.
  change (3 <=? 2) with false. cbv iota. now rewrite slice_last_one.
Qed.

End ThreeWords.

(** Cursor 4: the list is reshuffled and two words are taken. *)
Lemma line_step_at_4 l g out :
  length l = 3%nat ->
  line_step 2 (PoemState l g 4 out)
  = PoemState (shuffled g l) (gen_after_shuffle g 3) 2
              (out ++ [join (py_str " ") (take 2 (shuffled g l))]).
Proof.
  intros three.
  unfold line_step; cbn [pool pgen cursor written]. rewrite len_three, three by assumption.
  change (3 <=? 4) with true. cbv iota.
  rewrite slice_first_two by now rewrite shuffled_length.
  reflexivity.
Qed.

(** C5, as the specification states it, fails: with three words the second
    line holds the one word that was left; no reshuffle precedes it, and the
    whole call shuffles three times (two draws each), not six. *)
Lemma three_words_second_line_single :
  let ws := [py_str "a"; py_str "b"; py_str "c"] in
  exists l1 l2 rest w',
    assemble_poem 0%nat 6 (sample_world ws) = (Returns (l1 :: l2 :: rest), w')
    /\ l2 = py_str "a"
    /\ ~ (exists x y, x ∈ ws /\ y ∈ ws /\ l2 = join (py_str " ") [x; y])
    /\ consumed (gen w') = 6%nat.
Proof.
  cbv zeta. do 4 eexists. split; [vm_compute; reflexivity|].
  split; [reflexivity|]. split; [|reflexivity].
  intros (x & y & Hx & Hy & Heq).
  assert (Hlen : forall z, z ∈ [py_str "a"; py_str "b"; py_str "c"] ->
                           length z = 1%nat).
  { intros z Hz. repeat (apply elem_of_cons in Hz as [->|Hz]; [reflexivity|]).
    inversion Hz. }
  apply (f_equal length) in Heq. cbn [join] in Heq.
  rewrite !length_app, (Hlen x Hx), (Hlen y Hy) in Heq. discriminate.
Qed.

(** C5, amended.  For a pool of exactly three words and six lines,
    [segment_size] is 2.  Line 1 takes two words and leaves the cursor at 2;
    line 2 takes the one word that is left, without a reshuffle, and leaves
    the cursor at 4; only then, before line 3, is the list reshuffled and
    the cursor reset.  Lines 3-4 and 5-6 repeat this: the six lines hold
    2, 1, 2, 1, 2, 1 words and the list is shuffled three times in all. *)
Theorem three_words_six_lines words ws h g f o e :
  h !! words = Some ws -> length ws = 3%nat ->
  let g1 := gen_after_shuffle g 3 in
  let g2 := gen_after_shuffle g1 3 in
  let g3 := gen_after_shuffle g2 3 in
  let p := shuffled g ws in
  let q := shuffled g1 p in
  let r := shuffled g2 q in
  let sp := py_str " " in
  segment_size_of (len ws) 6 = 2
  /\ assemble_poem words 6 (World h g f o e)
     = (Returns [join sp (take 2 p); join sp (drop 2 p);
                 join sp (take 2 q); join sp (drop 2 q);
                 join sp (take 2 r); join sp (drop 2 r)],
        World (<[fresh (dom h) := r]> h) g3 f o e)
  /\ length (take 2 p) = 2%nat /\ length (drop 2 p) = 1%nat
  /\ length (take 2 q) = 2%nat /\ length (drop 2 q) = 1%nat
  /\ length (take 2 r) = 2%nat /\ length (drop 2 r) = 1%nat.
Proof.
  intros Hw three g1 g2 g3 p q r sp.
  assert (Hp : length p = 3%nat) by (unfold p; now rewrite shuffled_length).
  assert (Hq : length q = 3%nat) by (unfold q; now rewrite shuffled_length).
  assert (Hr : length r = 3%nat) by (unfold r; now rewrite shuffled_length).
  assert (Hseg : segment_size_of (len ws) 6 = 2).
  { unfold len. rewrite three. reflexivity. }
  split; [exact Hseg|]. split.
  - rewrite (assemble_poem_run words ws 6 h g f o e Hw)
      by (try lia; intros ->; discriminate).
    rewrite Hseg. change (Z.to_nat 6) with 6%nat.
    unfold first_state. rewrite three. fold p. fold g1.
    cbn [lines_from].
    rewrite (line_step_at_0 p g1 [] Hp).
    rewrite (line_step_at_2 p g1 _ Hp).
    rewrite (line_step_at_4 p g1 _ Hp). fold q. fold g2.
    rewrite (line_step_at_2 q g2 _ Hq).
    rewrite (line_step_at_4 q g2 _ Hq). fold r. fold g3.
    rewrite (line_step_at_2 r g3 _ Hr).
    reflexivity.
  - rewrite !length_take, !length_drop, Hp, Hq, Hr. repeat split.
Qed.

Lemma three_words_six_lines_witness :
  let ws := [py_str "Haus"; py_str "Baum"; py_str "laufen"] in
  let h : gmap nat (list str) := {[ 0%nat := ws ]} in
  let g := Rng (fun k => k) 0 in
  let g1 := gen_after_shuffle g 3 in
  let g2 := gen_after_shuffle g1 3 in
  let g3 := gen_after_shuffle g2 3 in
  let p := shuffled g ws in
  let q := shuffled g1 p in
  let r := shuffled g2 q in
  let sp := py_str " " in
  segment_size_of (len ws) 6 = 2
  /\ assemble_poem 0%nat 6 (World h g ∅ [] [])
     = (Returns [join sp (take 2 p); join sp (drop 2 p);
                 join sp (take 2 q); join sp (drop 2 q);
                 join sp (take 2 r); join sp (drop 2 r)],
        World (<[fresh (dom h) := r]> h) g3 ∅ [] [])
  /\ length (take 2 p) = 2%nat /\ length (drop 2 p) = 1%nat
  /\ length (take 2 q) = 2%nat /\ length (drop 2 q) = 1%nat
  /\ length (take 2 r) = 2%nat /\ length (drop 2 r) = 1%nat.
Proof.
  apply (three_words_six_lines 0%nat
           [py_str "Haus"; py_str "Baum"; py_str "laufen"]
           {[ 0%nat := [py_str "Haus"; py_str "Baum"; py_str "laufen"] ]}
           (Rng (fun k => k) 0) ∅ [] []).
  - reflexivity.
  - reflexivity.
Defined.

(** ** [detect_language] *)

Lemma detect_language_de (text : str) :
  detect_language text = py_str "de"
  <-> exists ch, ch ∈ text /\ ch ∈ py_str "äöüÄÖÜß".
Proof.
  unfold detect_language.
  destruct (existsb _ text) eqn:Hany.
  - split; [intros _|reflexivity].
    apply existsb_exists in Hany as (ch & Hin & Hch).
    exists ch. split; [now apply list_elem_of_In|].
    apply bool_decide_eq_true in Hch. unfold german_chars in Hch.
    now apply elem_of_list_to_set in Hch.
  - split; [discriminate|]. intros (ch & Hin & Hch). exfalso.
    assert (existsb (fun ch => bool_decide (ch ∈ german_chars)) text = true)
      as Htrue; [|congruence].
    apply existsb_exists. exists ch. split; [now apply list_elem_of_In|].
    apply bool_decide_eq_true. unfold german_chars.
    now apply elem_of_list_to_set.
Qed.

(** C7, as the specification states it, fails: a text with a capital umlaut
    and none of the four characters "ä", "ö", "ü", "ß" is German for the
    code. *)
Lemma capital_umlaut_is_german :
  (forall ch, ch ∈ py_str "äöüß" -> ch ∉ py_str "Ärger")
  /\ detect_language (py_str "Ärger") = py_str "de"
  /\ detect_language (py_str "Ärger") <> py_str "en".
Proof.
  split; [|split; [reflexivity|vm_compute; discriminate]].
  intros ch Hch Hin. vm_compute in Hch, Hin.
  repeat (apply elem_of_cons in Hch as [->|Hch];
          [repeat (apply elem_of_cons in Hin as [Hin|Hin]; [discriminate|]);
           inversion Hin|]).
  inversion Hch.
Qed.

(** C7, amended.  [detect_language] is total: it returns ["de"] when the
    text contains one of "ä", "ö", "ü", "Ä", "Ö", "Ü", "ß" anywhere, and
    ["en"] when it contains none of these seven characters. *)
Theorem detect_language_spec :
  (forall text : str,
      (detect_language text = py_str "de"
       <-> exists ch, ch ∈ text /\ ch ∈ py_str "äöüÄÖÜß")
      /\ (detect_language text = py_str "en"
          <-> forall ch, ch ∈ text -> ch ∉ py_str "äöüÄÖÜß")
      /\ (detect_language text = py_str "de"
          \/ detect_language text = py_str "en"))
  /\ detect_language (py_str "Größe") = py_str "de"
  /\ detect_language (py_str "Size") = py_str "en".
Proof.
  split; [|split; reflexivity].
  intros text. split; [apply detect_language_de|].
  pose proof (detect_language_de text) as Hde.
  assert (Hcases : detect_language text = py_str "de"
                   \/ detect_language text = py_str "en").
  { unfold detect_language. destruct (existsb _ text); auto. }
  split; [|exact Hcases]. split.
  - intros Hen ch Hin Hch.
    assert (detect_language text = py_str "de") as Hd
      by (apply Hde; eauto).
    rewrite Hen in Hd. vm_compute in Hd. discriminate.
  - intros Hnone. destruct Hcases as [Hd|Hen]; [|exact Hen].
    apply Hde in Hd as (ch & Hin & Hch). now destruct (Hnone ch Hin).
Qed.

(** The decoder reads the seven characters of the source literal as the code
    points U+00E4, U+00F6, U+00FC, U+00C4, U+00D6, U+00DC, U+00DF. *)
Example german_chars_code_points :
  py_str "äöüÄÖÜß" = [228; 246; 252; 196; 214; 220; 223]%N.
Proof. reflexivity. Qed.

(** ** [extract_nouns_verbs_heuristic] *)

Section Heuristic.

Context {unicode : UnicodeDB}.

Lemma heuristic_body_kept words token :
  heuristic_body words token
  = words ++ (if kept token then [token] else []).
Proof.
  unfold heuristic_body, kept, first_is_upper, german_verb_endings.
  destruct ((len token <=? 1) || str_isdigit token); [now rewrite app_nil_r|].
  destruct (match token with c :: _ => isupper c | [] => false end);
    [reflexivity|].
  destruct (endswith _ _); [reflexivity|].
  destruct (str_isalpha token && (3 <? len token)); [reflexivity|].
  now rewrite app_nil_r.
Qed.

Lemma fold_heuristic_body tokens : forall words,
  fold_left heuristic_body tokens words = words ++ filter (fun t => kept t = true) tokens.
Proof.
  induction tokens as [|t tokens IH]; intros words; cbn [fold_left].
  - now rewrite app_nil_r.
  - rewrite IH, heuristic_body_kept. rewrite <- app_assoc. f_equal.
    rewrite filter_cons. destruct (kept t) eqn:Hk.
    + now rewrite decide_True.
    + now rewrite decide_False by discriminate.
Qed.

Lemma heuristic_is_filter text :
  extract_nouns_verbs_heuristic text
  = filter (fun t => kept t = true) (findall_words text).
Proof. unfold extract_nouns_verbs_heuristic. apply fold_heuristic_body. Qed.

End Heuristic.

Example findall_words_runs :
  @findall_words Latin1.db (py_str "a_b c1, Größe!") =
  [py_str "a_b"; py_str "c1"; py_str "Größe"].
Proof. reflexivity. Qed.

(** C6, as the specification states it, fails in its first clause: the
    tokens are runs of word characters, and the underscore is one.  The text
    ["user_name"] is one token for the code, which is not alphabetic and is
    discarded, whereas its two alphanumeric runs would both be kept. *)
Lemma underscore_joins_tokens :
  @extract_nouns_verbs_heuristic Latin1.db (py_str "user_name") = []
  /\ filter (fun t => @kept Latin1.db t = true)
            (@alphanumeric_runs Latin1.db (py_str "user_name"))
     = [py_str "user"; py_str "name"].
Proof. split; reflexivity. Qed.

(** C6, amended.  The heuristic classifier takes as tokens the maximal runs
    of word characters (alphanumeric characters and the underscore), in
    order, and keeps a token exactly when the rules, applied in this order,
    say so: a token of length at most 1 or purely numeric is discarded;
    otherwise a token whose first character is uppercase is kept, whatever
    its suffix; otherwise a token whose lowercase form ends in "en", "st",
    "t" or "end" is kept; otherwise a purely alphabetic token of more than 3
    characters is kept; every other token is discarded.  So "Apfel",
    "rennen" and "wonderful" are kept and "big" is not. *)
Theorem heuristic_classifier_rules :
  (forall (unicode : UnicodeDB) (text : str),
      extract_nouns_verbs_heuristic text
      = filter (fun t => kept t = true) (runs is_word_char text []))
  /\ (forall (unicode : UnicodeDB) (token : str),
         (len token <= 1 \/ str_isdigit token = true -> kept token = false)
         /\ (1 < len token -> str_isdigit token = false ->
             (first_is_upper token = true -> kept token = true)
             /\ (first_is_upper token = false ->
                 (endswith (lower token)
                           [py_str "en"; py_str "st"; py_str "t"; py_str "end"]
                  = true -> kept token = true)
                 /\ (endswith (lower token)
                              [py_str "en"; py_str "st"; py_str "t"; py_str "end"]
                     = false ->
                     kept token = str_isalpha token && (3 <? len token)))))
  /\ @extract_nouns_verbs_heuristic Latin1.db (py_str "Apfel") = [py_str "Apfel"]
  /\ @extract_nouns_verbs_heuristic Latin1.db (py_str "rennen") = [py_str "rennen"]
  /\ @extract_nouns_verbs_heuristic Latin1.db (py_str "big") = []
  /\ @extract_nouns_verbs_heuristic Latin1.db (py_str "wonderful")
     = [py_str "wonderful"]
  /\ @extract_nouns_verbs_heuristic Latin1.db
       (py_str "Der Apfel ist big, wir rennen 42 wonderful x")
     = [py_str "Der"; py_str "Apfel"; py_str "ist"; py_str "rennen";
        py_str "wonderful"].
Proof.
  split; [intros; apply heuristic_is_filter|].
  split; [|repeat split; reflexivity].
  intros unicode token. unfold kept. split.
  - intros [Hlen|Hdigit].
    + now rewrite (proj2 (Z.leb_le _ _) Hlen).
    + rewrite Hdigit. now rewrite orb_true_r.
  - intros Hlen Hdigit.
    rewrite (proj2 (Z.leb_gt _ _) Hlen), Hdigit. cbn [orb].
    split; [now intros ->|]. intros ->. split; [now intros ->|now intros ->].
Qed.

(** ** [extract_text] and its callers *)

Section Callers.

Context {unicode : UnicodeDB} {ext : Collaborators}.

Lemma extract_text_unfold path w :
  extract_text path w
  = match Image_open path w with
    | (Raises e, w') =>
        if is_Exception e then (Raises (processing_error path e), w')
        else (Raises e, w')
    | (Returns img, w') =>
        match image_to_string img with
        | Returns txt => (Returns txt, w')
        | Raises e =>
            if is_Exception e then (Raises (processing_error path e), w')
            else (Raises e, w')
        end
    end.
Proof.
  unfold extract_text, try_except_Exception, bind, lift, raise, processing_error.
  destruct (Image_open path w) as [[img|e] w']; [|reflexivity].
  destruct (image_to_string img); reflexivity.
Qed.

Lemma Image_open_state path w : snd (Image_open path w) = w.
Proof. unfold Image_open. now destruct (fs w !! path). Qed.

Lemma extract_text_state path w : snd (extract_text path w) = w.
Proof.
  rewrite extract_text_unfold. pose proof (Image_open_state path w) as Hw.
  destruct (Image_open path w) as [[img|e] w']; cbn [snd] in Hw; subst w'.
  - destruct (image_to_string img) as [txt|e]; [reflexivity|].
    now destruct (is_Exception e).
  - now destruct (is_Exception e).
Qed.

Lemma extract_text_pair path w o :
  fst (extract_text path w) = o -> extract_text path w = (o, w).
Proof.
  intros Ho. pose proof (extract_text_state path w) as Hw.
  destruct (extract_text path w) as [o' w']; cbn [fst snd] in *. congruence.
Qed.

(** The part of [main] up to the test of the extracted text. *)
Lemma main_no_text image lang w txt :
  is_Some (fs w !! image) ->
  extract_text image w = (Returns txt, w) ->
  strip txt = [] ->
  main image lang w
  = (Raises (SystemExit 0),
     World (heap w) (gen w) (fs w)
           (stdout w ++ [py_str "No text detected in the image."]) (stderr w)).
Proof.
  intros Hfile Htext Hblank. unfold main.
  erewrite bind_returns.
  2:{ unfold os_path_isfile. now rewrite bool_decide_eq_true_2 by assumption. }
  cbn [negb]. erewrite bind_returns by reflexivity.
  erewrite bind_returns by exact Htext.
  rewrite bool_decide_eq_true_2 by assumption.
  erewrite bind_raises; [reflexivity|].
  erewrite bind_returns by reflexivity. reflexivity.
Qed.

(** What [tempfile] answers: a name that did not exist, now an empty file. *)
Lemma mkstemp_inner_fresh suffix tries : forall seq w tmp w1,
  mkstemp_inner suffix seq tries w = (Returns tmp, w1) ->
  fs w !! tmp = None /\ w1 = set_fs (<[tmp := []]> (fs w)) w.
Proof.
  induction tries as [|tries IH]; intros seq w tmp w1; cbn [mkstemp_inner].
  - discriminate.
  - destruct (fs w !! (temp_candidates seq ++ suffix)) eqn:Hname.
    + apply IH.
    + intros [= <- <-]. now split.
Qed.

Lemma NamedTemporaryFile_fresh suffix w tmp w1 :
  NamedTemporaryFile suffix w = (Returns tmp, w1) ->
  fs w !! tmp = None /\ w1 = set_fs (<[tmp := []]> (fs w)) w.
Proof. apply mkstemp_inner_fresh. Qed.

Lemma generate_upto_ocr files file w tmp w1 :
  files !! py_str "image" = Some file -> filename file <> [] ->
  NamedTemporaryFile (py_str ".png") w = (Returns tmp, w1) ->
  generate files w
  = (txt <- extract_text tmp ;;
     os_unlink tmp ;;;
     if bool_decide (strip txt = [])
     then ret (JsonError 400 (py_str "Kein Text im Bild gefunden."))
     else
       let lang := detect_language txt in
       nlp <- load_spacy_pipeline lang ;;
       ws <- match nlp with
             | Some nlp => extract_nouns_verbs_spacy txt nlp
             | None => ret (extract_nouns_verbs_heuristic txt)
             end ;;
       poem_lines <-
         (if bool_decide (ws = [])
          then ret (replicate 6 (py_str "Keine Substantive oder Verben gefunden"))
          else words <- new_list ws ;; assemble_poem words 6) ;;
       ret (Page (join [10%N] poem_lines))) (saved file tmp w).
Proof.
  intros Hfile Hname Htmp. unfold generate. rewrite Hfile.
  rewrite bool_decide_eq_false_2 by assumption.
  erewrite bind_returns by exact Htmp.
  erewrite bind_returns by reflexivity.
  destruct (NamedTemporaryFile_fresh _ _ _ _ Htmp) as [_ ->].
  unfold saved, set_fs; cbn [heap gen fs stdout stderr].
  now rewrite insert_insert_eq.
Qed.

Lemma generate_no_text files file w tmp w1 txt :
  files !! py_str "image" = Some file -> filename file <> [] ->
  NamedTemporaryFile (py_str ".png") w = (Returns tmp, w1) ->
  extract_text tmp (saved file tmp w) = (Returns txt, saved file tmp w) ->
  strip txt = [] ->
  generate files w
  = (Returns (JsonError 400 (py_str "Kein Text im Bild gefunden.")),
     set_fs (delete tmp (fs (saved file tmp w))) (saved file tmp w)).
Proof.
  intros Hfile Hname Htmp Htext Hblank.
  rewrite (generate_upto_ocr files file w tmp w1 Hfile Hname Htmp).
  erewrite bind_returns by exact Htext.
  erewrite bind_returns.
  2:{ unfold os_unlink, saved, set_fs; cbn [fs].
      rewrite lookup_insert_eq. reflexivity. }
  now rewrite bool_decide_eq_true_2 by assumption.
Qed.

End Callers.

Section Failure.

Context {unicode : UnicodeDB} {ext : Collaborators}.

Lemma extract_text_failure path w cause :
  fails_with path w cause ->
  extract_text path w = (Raises (surfaced path cause), w).
Proof.
  unfold fails_with, surfaced. intros Hfail. rewrite extract_text_unfold.
  pose proof (Image_open_state path w) as Hst.
  destruct (Image_open path w) as [[img|e0] w0]; cbn [fst snd] in *; subst w0.
  - destruct Hfail as [Hopen|(img' & [= <-] & Hocr)]; [discriminate|].
    rewrite Hocr. now destruct (is_Exception cause).
  - destruct Hfail as [[= ->]|(img' & Hopen & _)]; [|discriminate].
    now destruct (is_Exception cause).
Qed.

Lemma extract_text_raises_inv path w e w' :
  extract_text path w = (Raises e, w') ->
  w' = w /\ exists cause, fails_with path w cause /\ e = surfaced path cause.
Proof.
  unfold fails_with, surfaced. rewrite extract_text_unfold.
  pose proof (Image_open_state path w) as Hst.
  destruct (Image_open path w) as [[img|e0] w0]; cbn [fst snd] in *; subst w0.
  - destruct (image_to_string img) as [txt|e1] eqn:Hocr; [discriminate|].
    intros Hraise. split.
    + destruct (is_Exception e1); now injection Hraise.
    + exists e1. split; [right; eauto|].
      destruct (is_Exception e1); now injection Hraise.
  - intros Hraise. split.
    + destruct (is_Exception e0); now injection Hraise.
    + exists e0. split; [now left|].
      destruct (is_Exception e0); now injection Hraise.
Qed.

Lemma extract_text_success path w img txt :
  fst (Image_open path w) = Returns img ->
  image_to_string img = Returns txt ->
  extract_text path w = (Returns txt, w).
Proof.
  intros Hopen Hocr. rewrite extract_text_unfold.
  pose proof (Image_open_state path w) as Hst.
  destruct (Image_open path w) as [[img'|e0] w0]; cbn [fst snd] in *; subst w0;
    [|discriminate].
  injection Hopen as ->. now rewrite Hocr.
Qed.

(** [main] does not catch what [extract_text] raises. *)
Lemma main_ocr_failure image lang w e :
  is_Some (fs w !! image) ->
  extract_text image w = (Raises e, w) ->
  main image lang w = (Raises e, w).
Proof.
  intros Hfile Hraise. unfold main.
  erewrite bind_returns.
  2:{ unfold os_path_isfile. now rewrite bool_decide_eq_true_2 by assumption. }
  cbn [negb]. erewrite bind_returns by reflexivity.
  now erewrite bind_raises by exact Hraise.
Qed.

(** Nor does [generate]. *)
Lemma generate_ocr_failure files file w tmp w1 e :
  files !! py_str "image" = Some file -> filename file <> [] ->
  NamedTemporaryFile (py_str ".png") w = (Returns tmp, w1) ->
  extract_text tmp (saved file tmp w) = (Raises e, saved file tmp w) ->
  generate files w = (Raises e, saved file tmp w).
Proof.
  intros Hfile Hname Htmp Hraise.
  rewrite (generate_upto_ocr files file w tmp w1 Hfile Hname Htmp).
  now erewrite bind_raises by exact Hraise.
Qed.

End Failure.

(** C8.  [extract_text] raises exactly when the image cannot be opened and
    decoded or when the OCR backend raises.  A failure [cause] that is an
    [Exception] comes out as the [RuntimeError] "Unable to open or process
    image '<path>': <cause>", any other failure as it is; nothing else is
    ever raised, and neither caller catches it: [main] and [generate] are
    left by that same error.  When both steps succeed [extract_text]
    returns the OCR text as it is, empty or blank included, and changes
    nothing.  A blank text is then a case of its own for the callers:
    [main] prints "No text detected in the image." and exits with code 0,
    and [generate] answers with the error "Kein Text im Bild gefunden." and
    status 400. *)
Theorem extract_text_errors {unicode : UnicodeDB} {ext : Collaborators}
    (path : str) (w : world) :
  ((exists e w', extract_text path w = (Raises e, w'))
   <-> (exists e, fst (Image_open path w) = Raises e)
       \/ (exists img e, fst (Image_open path w) = Returns img
                         /\ image_to_string img = Raises e))
  /\ (forall cause,
         fails_with path w cause ->
         extract_text path w
         = (Raises (if is_Exception cause
                    then RuntimeError
                           (py_str "Unable to open or process image '"
                            ++ path ++ py_str "': " ++ exc_str cause)
                    else cause), w))
  /\ (forall e w', extract_text path w = (Raises e, w') ->
                   w' = w
                   /\ exists cause, fails_with path w cause
                                    /\ e = surfaced path cause)
  /\ (forall e w', extract_text path w = (Raises e, w') ->
                   is_Exception e = true ->
                   exists cause, e = processing_error path cause)
  /\ (forall img txt, fst (Image_open path w) = Returns img ->
                      image_to_string img = Returns txt ->
                      extract_text path w = (Returns txt, w))
  /\ (forall txt lang,
         is_Some (fs w !! path) ->
         extract_text path w = (Returns txt, w) -> strip txt = [] ->
         main path lang w
         = (Raises (SystemExit 0),
            World (heap w) (gen w) (fs w)
                  (stdout w ++ [py_str "No text detected in the image."])
                  (stderr w)))
  /\ (forall files file w0 w1 txt,
         files !! py_str "image" = Some file -> filename file <> [] ->
         NamedTemporaryFile (py_str ".png") w0 = (Returns path, w1) ->
         w = saved file path w0 ->
         extract_text path w = (Returns txt, w) -> strip txt = [] ->
         generate files w0
         = (Returns (JsonError 400 (py_str "Kein Text im Bild gefunden.")),
            set_fs (delete path (fs w)) w))
  /\ (forall cause lang,
         is_Some (fs w !! path) -> fails_with path w cause ->
         main path lang w = (Raises (surfaced path cause), w))
  /\ (forall files file w0 w1 cause,
         files !! py_str "image" = Some file -> filename file <> [] ->
         NamedTemporaryFile (py_str ".png") w0 = (Returns path, w1) ->
         w = saved file path w0 -> fails_with path w cause ->
         generate files w0 = (Raises (surfaced path cause), w)).
Proof.
  split; [|split; [|split; [|split; [|split; [|split; [|split; [|split]]]]]]].
  - split.
    + intros (e & w' & Hraise).
      destruct (extract_text_raises_inv path w e w' Hraise)
        as (_ & cause & [Hopen|(img & Hopen & Hocr)] & _); eauto.
    + intros [(e & Hopen)|(img & e & Hopen & Hocr)].
      * do 2 eexists. apply (extract_text_failure path w e). now left.
      * do 2 eexists. apply (extract_text_failure path w e). right. eauto.
  - intros cause Hfail. apply (extract_text_failure path w cause Hfail).
  - apply extract_text_raises_inv.
  - intros e w' Hraise Hexc.
    destruct (extract_text_raises_inv path w e w' Hraise)
      as (_ & cause & _ & ->).
    unfold surfaced in *. destruct (is_Exception cause) eqn:Hcause; [eauto|].
    congruence.
  - apply extract_text_success.
  - intros txt lang Hfile Htext Hblank.
    now apply (main_no_text path lang w txt).
  - intros files file w0 w1 txt Hfile Hname Htmp -> Htext Hblank.
    now apply (generate_no_text files file w0 path w1 txt).
  - intros cause lang Hfile Hfail. apply main_ocr_failure; [assumption|].
    now apply extract_text_failure.
  - intros files file w0 w1 cause Hfile Hname Htmp -> Hfail.
    apply (generate_ocr_failure files file w0 path w1); try assumption.
    now apply extract_text_failure.
Qed.

(** The theorem at work on concrete files: an undecodable file is reported
    by [extract_text], and so by [main], as the processing error that names
    the path and the cause; a file that holds two spaces takes the
    blank-text exit of both callers. *)
Lemma extract_text_errors_witness :
  let _ := Latin1.db in
  let _ := toy_collaborators in
  let w := World ∅ (Rng (fun k => k) 0)
                 {[ py_str "a.png" := [0%N];
                    py_str "c.png" := py_str "  " ]} [] [] in
  let tmp := py_str "/tmp/tmp.png" in
  extract_text (py_str "a.png") w
  = (Raises (RuntimeError
       (py_str "Unable to open or process image 'a.png': cannot identify image file")),
     w)
  /\ main (py_str "a.png") None w
     = (Raises (RuntimeError
          (py_str "Unable to open or process image 'a.png': cannot identify image file")),
        w)
  /\ main (py_str "c.png") None w
     = (Raises (SystemExit 0),
        World (heap w) (gen w) (fs w)
              (stdout w ++ [py_str "No text detected in the image."]) (stderr w))
  /\ generate (toy_request (py_str "  ")) empty_world
     = (Returns (JsonError 400 (py_str "Kein Text im Bild gefunden.")),
        set_fs (delete tmp (fs (saved (Upload (py_str "shot.png") (py_str "  "))
                                      tmp empty_world)))
               (saved (Upload (py_str "shot.png") (py_str "  ")) tmp empty_world)).
Proof.
  cbv zeta. split; [|split; [|split]].
  - destruct (@extract_text_errors Latin1.db toy_collaborators (py_str "a.png")
                (World ∅ (Rng (fun k => k) 0)
                       {[ py_str "a.png" := [0%N];
                          py_str "c.png" := py_str "  " ]} [] []))
      as (_ & Hfail & _).
    rewrite (Hfail (ForeignError true (py_str "cannot identify image file")))
      by (left; vm_compute; reflexivity).
    vm_compute. reflexivity.
  - destruct (@extract_text_errors Latin1.db toy_collaborators (py_str "a.png")
                (World ∅ (Rng (fun k => k) 0)
                       {[ py_str "a.png" := [0%N];
                          py_str "c.png" := py_str "  " ]} [] []))
      as (_ & _ & _ & _ & _ & _ & _ & Hmain & _).
    rewrite (Hmain (ForeignError true (py_str "cannot identify image file")) None).
    + vm_compute. reflexivity.
    + eexists. vm_compute. reflexivity.
    + left. vm_compute. reflexivity.
  - destruct (@extract_text_errors Latin1.db toy_collaborators (py_str "c.png")
                (World ∅ (Rng (fun k => k) 0)
                       {[ py_str "a.png" := [0%N];
                          py_str "c.png" := py_str "  " ]} [] []))
      as (_ & _ & _ & _ & _ & Hmain & _).
    apply (Hmain (py_str "  ") None).
    + eexists. vm_compute. reflexivity.
    + vm_compute. reflexivity.
    + vm_compute. reflexivity.
  - destruct (@extract_text_errors Latin1.db toy_collaborators
                (py_str "/tmp/tmp.png")
                (saved (Upload (py_str "shot.png") (py_str "  "))
                       (py_str "/tmp/tmp.png") empty_world))
      as (_ & _ & _ & _ & _ & _ & Hgen & _).
    apply (Hgen (toy_request (py_str "  "))
                (Upload (py_str "shot.png") (py_str "  ")) empty_world
                (set_fs {[ py_str "/tmp/tmp.png" := [] ]} empty_world)
                (py_str "  ")).
    + vm_compute. reflexivity.
    + vm_compute. discriminate.
    + vm_compute. reflexivity.
    + reflexivity.
    + vm_compute. reflexivity.
    + vm_compute. reflexivity.
Defined.

(** The three outcomes of [extract_text] on concrete files: a file that
    cannot be decoded, a file on which the OCR fails, and a file whose text
    is blank. *)
Example extract_text_outcomes :
  let _ := Latin1.db in
  let _ := toy_collaborators in
  let w := World ∅ (Rng (fun k => k) 0)
                 {[ py_str "a.png" := [0%N];
                    py_str "b.png" := [1%N];
                    py_str "c.png" := py_str "  " ]} [] [] in
  fst (extract_text (py_str "a.png") w)
  = Raises (RuntimeError
      (py_str "Unable to open or process image 'a.png': cannot identify image file"))
  /\ fst (extract_text (py_str "b.png") w)
     = Raises (RuntimeError
         (py_str "Unable to open or process image 'b.png': tesseract is not installed"))
  /\ fst (extract_text (py_str "missing.png") w)
     = Raises (RuntimeError
         (py_str "Unable to open or process image 'missing.png': No such file or directory"))
  /\ extract_text (py_str "c.png") w = (Returns (py_str "  "), w)
  /\ fst (main (py_str "c.png") None w) = Raises (SystemExit 0)
  /\ stdout (snd (main (py_str "c.png") None w))
     = [py_str "No text detected in the image."]
  /\ fst (generate (toy_request (py_str "  ")) w)
     = Returns (JsonError 400 (py_str "Kein Text im Bild gefunden.")).
Proof. cbv zeta. repeat apply conj; vm_compute; reflexivity. Qed.

(** ** [generate]: the temporary file *)

Lemma bind_fs {A B} (m : M A) (k : A -> M B) w :
  (forall a, keeps_files (k a)) -> fs (snd (bind m k w)) = fs (snd (m w)).
Proof.
  intros Hk. unfold bind. destruct (m w) as [[a|e] w']; [apply Hk|reflexivity].
Qed.

Lemma keeps_files_bind {A B} (m : M A) (k : A -> M B) :
  keeps_files m -> (forall a, keeps_files (k a)) -> keeps_files (bind m k).
Proof. intros Hm Hk w. rewrite bind_fs by assumption. apply Hm. Qed.

Lemma keeps_files_ret {A} (a : A) : keeps_files (ret a).
Proof. now intros w. Qed.

Lemma keeps_files_raise {A} e : keeps_files (@raise A e).
Proof. now intros w. Qed.

Lemma keeps_files_for_range {S} (body : S -> M S) n :
  (forall s, keeps_files (body s)) -> forall s, keeps_files (for_range n body s).
Proof.
  intros Hbody. induction n as [|n IH]; intros s; cbn [for_range].
  - apply keeps_files_ret.
  - now apply keeps_files_bind.
Qed.

Lemma keeps_files_read_list x : keeps_files (read_list x).
Proof. intros w. unfold read_list. now destruct (heap w !! x). Qed.

Lemma keeps_files_list_copy x : keeps_files (list_copy x).
Proof. intros w. unfold list_copy. now destruct (heap w !! x). Qed.

Lemma keeps_files_getitem x i : keeps_files (getitem x i).
Proof.
  apply keeps_files_bind; [apply keeps_files_read_list|].
  intros l. destruct (l !! i); [apply keeps_files_ret|apply keeps_files_raise].
Qed.

Lemma keeps_files_setitem x i v : keeps_files (setitem x i v).
Proof.
  intros w. unfold setitem. destruct (heap w !! x) as [l|]; [|reflexivity].
  now destruct (decide (i < length l)%nat).
Qed.

Lemma keeps_files_randbelow n : keeps_files (randbelow n).
Proof. now intros w. Qed.

Lemma keeps_files_shuffle_loop x i : keeps_files (shuffle_loop x i).
Proof.
  induction i as [|i IH]; cbn [shuffle_loop]; [apply keeps_files_ret|].
  apply keeps_files_bind; [apply keeps_files_randbelow|]. intros j.
  apply keeps_files_bind; [apply keeps_files_getitem|]. intros xj.
  apply keeps_files_bind; [apply keeps_files_getitem|]. intros xi.
  apply keeps_files_bind; [apply keeps_files_setitem|]. intros _.
  apply keeps_files_bind; [apply keeps_files_setitem|]. intros _.
  exact IH.
Qed.

Lemma keeps_files_random_shuffle x : keeps_files (random_shuffle x).
Proof.
  apply keeps_files_bind; [apply keeps_files_read_list|].
  intros l. apply keeps_files_shuffle_loop.
Qed.

Lemma keeps_files_poem_line s : keeps_files (poem_line s).
Proof.
  unfold poem_line.
  apply keeps_files_bind; [apply keeps_files_read_list|]. intros l.
  apply keeps_files_bind.
  - destruct (len l <=? idx s); [|apply keeps_files_ret].
    apply keeps_files_bind; [apply keeps_files_random_shuffle|].
    intros _. apply keeps_files_ret.
  - intros i. apply keeps_files_bind; [apply keeps_files_read_list|].
    intros l'. apply keeps_files_ret.
Qed.

Lemma keeps_files_assemble_poem words lines :
  keeps_files (assemble_poem words lines).
Proof.
  unfold assemble_poem.
  apply keeps_files_bind; [apply keeps_files_list_copy|]. intros x.
  apply keeps_files_bind; [apply keeps_files_random_shuffle|]. intros _.
  apply keeps_files_bind; [apply keeps_files_read_list|]. intros l.
  destruct (len l =? 0); [apply keeps_files_ret|].
  apply keeps_files_bind.
  - unfold floordiv. destruct (lines =? 0);
      [apply keeps_files_raise|apply keeps_files_ret].
  - intros q. apply keeps_files_bind.
    + apply keeps_files_for_range. apply keeps_files_poem_line.
    + intros s. apply keeps_files_ret.
Qed.

Section TempFile.

Context {unicode : UnicodeDB} {ext : Collaborators}.

Lemma keeps_files_lift {A} (o : outcome A) : keeps_files (lift o).
Proof. now intros w. Qed.

Lemma keeps_files_try {A} (m : M A) handler :
  keeps_files m -> (forall e, keeps_files (handler e)) ->
  keeps_files (try_except_Exception m handler).
Proof.
  intros Hm Hh w. unfold try_except_Exception.
  specialize (Hm w). destruct (m w) as [[a|e] w']; cbn [snd] in *; [assumption|].
  destruct (is_Exception e); [|assumption]. now rewrite Hh.
Qed.

Lemma keeps_files_load_spacy_pipeline lang :
  keeps_files (load_spacy_pipeline lang).
Proof.
  unfold load_spacy_pipeline.
  destruct spacy as [spacy_load|]; [|apply keeps_files_ret].
  destruct (model_names !! lang) as [model_name|]; [|apply keeps_files_ret].
  apply keeps_files_try.
  - apply keeps_files_bind; [apply keeps_files_lift|].
    intros nlp. apply keeps_files_ret.
  - intros _. apply keeps_files_ret.
Qed.

Lemma keeps_files_extract_nouns_verbs_spacy txt nlp :
  keeps_files (extract_nouns_verbs_spacy txt nlp).
Proof.
  apply keeps_files_bind; [apply keeps_files_lift|].
  intros doc. apply keeps_files_ret.
Qed.

Lemma keeps_files_new_list l : keeps_files (new_list l).
Proof. now intros w. Qed.

(** On every path of [generate] on which [extract_text] returns, the
    temporary file is gone when the handler is left. *)
Lemma generate_removes_temp_file files file w tmp w1 txt :
  files !! py_str "image" = Some file -> filename file <> [] ->
  NamedTemporaryFile (py_str ".png") w = (Returns tmp, w1) ->
  fst (extract_text tmp (saved file tmp w)) = Returns txt ->
  fs (snd (generate files w)) !! tmp = None.
Proof.
  intros Hfile Hname Htmp Htext.
  rewrite (generate_upto_ocr files file w tmp w1 Hfile Hname Htmp).
  assert (Hrun : extract_text tmp (saved file tmp w)
                 = (Returns txt, saved file tmp w)).
  { now apply extract_text_pair. }
  erewrite bind_returns by exact Hrun.
  rewrite bind_fs.
  - unfold os_unlink, saved, set_fs; cbn [fs]. rewrite lookup_insert_eq.
    cbn [snd fs]. apply lookup_delete_eq.
  - intros _. destruct (bool_decide (strip txt = [])); [apply keeps_files_ret|].
    apply keeps_files_bind; [apply keeps_files_load_spacy_pipeline|].
    intros nlp. apply keeps_files_bind.
    + destruct nlp; [apply keeps_files_extract_nouns_verbs_spacy
                    |apply keeps_files_ret].
    + intros ws. apply keeps_files_bind; [|intros ?; apply keeps_files_ret].
      destruct (bool_decide (ws = [])); [apply keeps_files_ret|].
      apply keeps_files_bind; [apply keeps_files_new_list|].
      intros words. apply keeps_files_assemble_poem.
Qed.

(** C9 does not hold of the code.  When [extract_text] raises, [generate]
    is left by that exception before [os.unlink] is reached: the temporary
    file, which did not exist before the request, exists after it and holds
    the upload. *)
Theorem generate_leaks_temp_file files file w tmp w1 :
  files !! py_str "image" = Some file -> filename file <> [] ->
  NamedTemporaryFile (py_str ".png") w = (Returns tmp, w1) ->
  (exists e, fst (extract_text tmp (saved file tmp w)) = Raises e) ->
  exists e w',
    generate files w = (Raises e, w')
    /\ fs w !! tmp = None
    /\ fs w' !! tmp = Some (contents file).
Proof.
  intros Hfile Hname Htmp (e & Hraise).
  rewrite (generate_upto_ocr files file w tmp w1 Hfile Hname Htmp).
  assert (Hrun : extract_text tmp (saved file tmp w)
                 = (Raises e, saved file tmp w)).
  { now apply extract_text_pair. }
  exists e, (saved file tmp w). split; [|split].
  - now erewrite bind_raises by exact Hrun.
  - now destruct (NamedTemporaryFile_fresh _ _ _ _ Htmp).
  - unfold saved, set_fs; cbn [fs]. apply lookup_insert_eq.
Qed.

End TempFile.

Lemma generate_leaks_temp_file_witness :
  exists e w',
    @generate Latin1.db toy_collaborators (toy_request [0%N]) empty_world
    = (Raises e, w')
    /\ fs empty_world !! py_str "/tmp/tmp.png" = None
    /\ fs w' !! py_str "/tmp/tmp.png" = Some (contents (Upload (py_str "shot.png") [0%N])).
Proof.
  apply (@generate_leaks_temp_file Latin1.db toy_collaborators
           (toy_request [0%N]) (Upload (py_str "shot.png") [0%N]) empty_world
           (py_str "/tmp/tmp.png")
           (set_fs {[ py_str "/tmp/tmp.png" := [] ]} empty_world)).
  - vm_compute. reflexivity.
  - vm_compute. discriminate.
  - vm_compute. reflexivity.
  - eexists. vm_compute. reflexivity.
Defined.

(** * Further properties of the code *)

(** ** [assemble_poem]: line counts that are not positive *)

(** X1.  With a line count of 0, [assemble_poem] returns the empty poem for
    an empty word list and raises [ZeroDivisionError] for every other word
    list: the quotient [len(words_list) // lines] is taken before the loop. *)
Theorem assemble_poem_no_lines words ws w :
  heap w !! words = Some ws ->
  fst (assemble_poem words 0 w)
  = match ws with
    | [] => Returns []
    | _ :: _ => Raises ZeroDivisionError
    end.
Proof.
  destruct w as [h g f o e]; cbn [heap]. intros Hw. destruct ws as [|a ws].
  - now rewrite (assemble_poem_empty words 0 h g f o e Hw).
  - now rewrite (assemble_poem_zero_lines words (a :: ws) h g f o e Hw).
Qed.

Lemma assemble_poem_no_lines_witness :
  fst (assemble_poem 0%nat 0 (sample_world [py_str "Haus"; py_str "Baum"]))
  = Raises ZeroDivisionError.
Proof.
  apply (assemble_poem_no_lines 0%nat [py_str "Haus"; py_str "Baum"]
           (sample_world [py_str "Haus"; py_str "Baum"])).
  reflexivity.
Defined.

(** X2.  With a negative line count [assemble_poem] returns the empty poem,
    whatever the word list: neither the placeholder nor a line is
    produced, and nothing is raised. *)
Theorem assemble_poem_negative_lines words ws lines w :
  heap w !! words = Some ws -> lines < 0 ->
  fst (assemble_poem words lines w) = Returns [].
Proof.
  destruct w as [h g f o e]; cbn [heap]. intros Hw Hlines.
  assert (Hn : Z.to_nat lines = 0%nat) by lia.
  destruct ws as [|a ws].
  - rewrite (assemble_poem_empty words lines h g f o e Hw). now rewrite Hn.
  - rewrite (assemble_poem_run words (a :: ws) lines h g f o e Hw)
      by (congruence || lia).
    now rewrite Hn.
Qed.

Lemma assemble_poem_negative_lines_witness :
  fst (assemble_poem 0%nat (-3) (sample_world [py_str "Haus"; py_str "Baum"]))
  = Returns [].
Proof.
  apply (assemble_poem_negative_lines 0%nat [py_str "Haus"; py_str "Baum"]
           (-3) (sample_world [py_str "Haus"; py_str "Baum"])).
  - reflexivity.
  - lia.
Defined.

(** ** [assemble_poem]: no line without a word *)

Lemma py_slice_length_pos {A} (l : list A) i seg :
  0 <= i < len l -> 1 <= seg -> 1 <= len (py_slice l i (i + seg)).
Proof.
  intros Hi Hseg. rewrite py_slice_nonneg by lia.
  unfold len in *. rewrite length_take, length_drop. lia.
Qed.

Lemma line_step_inv_nonempty ws seg s :
  ws <> [] -> 1 <= seg ->
  poem_inv_nonempty ws seg s -> poem_inv_nonempty ws seg (line_step seg s).
Proof.
  intros Hne Hseg (Hperm & Hcur & Hlines).
  assert (Hpos : 0 < len ws).
  { unfold len. destruct ws; [congruence|simpl; lia]. }
  assert (Hlen : len (pool s) = len ws).
  { unfold len. now rewrite (Permutation_length Hperm). }
  unfold line_step, poem_inv_nonempty. cbn [pool pgen cursor written].
  destruct (Z.leb_spec (len (pool s)) (cursor s)) as [Hfull|Hleft].
  - split; [now rewrite shuffled_perm|]. split; [lia|].
    apply Forall_app. split; [assumption|]. constructor; [|constructor].
    exists (py_slice (shuffled (pgen s) (pool s)) 0 (0 + seg)).
    split; [reflexivity|]. split.
    + split; [|apply py_slice_length; lia].
      apply py_slice_length_pos; [|lia].
      unfold len in *. rewrite shuffled_length. lia.
    + intros word Hword.
      apply (elem_of_Permutation_proper word _ _ Hperm).
      apply (elem_of_Permutation_proper word _ _
               (shuffled_perm (pgen s) (pool s))).
      eapply elem_of_sublist; [exact Hword|apply py_slice_sublist].
  - split; [assumption|]. split; [lia|].
    apply Forall_app. split; [assumption|]. constructor; [|constructor].
    exists (py_slice (pool s) (cursor s) (cursor s + seg)).
    split; [reflexivity|]. split.
    + split; [apply py_slice_length_pos; lia|apply py_slice_length; lia].
    + intros word Hword.
      apply (elem_of_Permutation_proper word _ _ Hperm).
      eapply elem_of_sublist; [exact Hword|apply py_slice_sublist].
Qed.

Lemma lines_from_inv_nonempty ws seg n : forall s,
  ws <> [] -> 1 <= seg ->
  poem_inv_nonempty ws seg s -> poem_inv_nonempty ws seg (lines_from seg n s).
Proof.
  induction n as [|n IH]; intros s Hne Hseg Hinv; cbn [lines_from]; [assumption|].
  apply IH; try assumption. now apply line_step_inv_nonempty.
Qed.

(** X3.  For a non-empty word list and a positive line count, every line
    of the poem holds at least one word and at most [segment_size] words,
    all taken from the word list: the cursor is reset before a slice could
    be empty. *)
Theorem assemble_poem_lines_nonempty words ws lines w :
  heap w !! words = Some ws -> ws <> [] -> 0 < lines ->
  exists res w',
    assemble_poem words lines w = (Returns res, w')
    /\ forall line, line ∈ res ->
                    nonempty_line_of ws (clamped_quotient (len ws) lines) line.
Proof.
  destruct w as [h g f o e]; cbn [heap]. intros Hw Hne Hlines.
  rewrite (assemble_poem_run words ws lines h g f o e Hw Hne) by lia.
  do 2 eexists. split; [reflexivity|]. intros line Hline.
  pose proof (segment_size_of_bounds (len ws) lines) as Hseg.
  destruct (lines_from_inv_nonempty ws (segment_size_of (len ws) lines)
              (Z.to_nat lines) (first_state ws g)) as (_ & _ & Hall);
    [assumption|lia| |].
  { unfold poem_inv_nonempty, first_state; cbn [pool cursor written].
    split; [apply shuffled_perm|]. split; [lia|constructor]. }
  rewrite Forall_forall in Hall. rewrite <- segment_size_of_clamped.
  now apply Hall.
Qed.

Lemma assemble_poem_lines_nonempty_witness :
  let ws := [py_str "Haus"; py_str "Baum"; py_str "laufen"] in
  exists res w',
    assemble_poem 0%nat 6 (sample_world ws) = (Returns res, w')
    /\ forall line, line ∈ res ->
                    nonempty_line_of ws (clamped_quotient (len ws) 6) line.
Proof.
  apply (assemble_poem_lines_nonempty 0%nat
           [py_str "Haus"; py_str "Baum"; py_str "laufen"] 6
           (sample_world [py_str "Haus"; py_str "Baum"; py_str "laufen"])).
  - reflexivity.
  - discriminate.
  - lia.
Defined.

(** ** [assemble_poem]: a word list that is long enough *)

Lemma py_slice_chunk (p : list str) (j n : nat) :
  (j * n + n <= length p)%nat ->
  py_slice p (Z.of_nat (j * n)) (Z.of_nat (j * n) + Z.of_nat n) = chunk n p j.
Proof.
  intros Hfit. rewrite py_slice_nonneg by lia. unfold chunk, len.
  f_equal; [lia|]. f_equal. lia.
Qed.

Lemma lines_from_chunks (p : list str) (g : rng) (n : nat) :
  (1 <= n)%nat ->
  forall count j out,
    ((j + count) * n <= length p)%nat ->
    lines_from (Z.of_nat n) count (PoemState p g (Z.of_nat (j * n)) out)
    = PoemState p g (Z.of_nat ((j + count) * n))
                (out ++ map (fun i => join (py_str " ") (chunk n p i))
                            (seq j count)).
Proof.
  intros Hn. induction count as [|count IH]; intros j out Hfit.
  - cbn. rewrite app_nil_r. now rewrite Nat.add_0_r.
  - cbn [lines_from seq map].
    assert (Hstep : line_step (Z.of_nat n) (PoemState p g (Z.of_nat (j * n)) out)
                    = PoemState p g (Z.of_nat (S j * n))
                        (out ++ [join (py_str " ") (chunk n p j)])).
    { unfold line_step; cbn [pool pgen cursor written].
      destruct (Z.leb_spec (len p) (Z.of_nat (j * n))) as [Hfull|_].
      - unfold len in Hfull. nia.
      - rewrite py_slice_chunk by nia. f_equal. lia. }
    rewrite Hstep, IH by nia.
    rewrite <- app_assoc. f_equal. lia.
Qed.

(** X4.  When the word list holds at least two words per line
    ([2 * lines <= len(words)], [lines > 0]), no word of the shuffled list
    is used twice: line [j] is the join of the [j]-th run of [segment_size]
    consecutive words of the list as first shuffled, every line holds
    exactly [segment_size] words, and the list is never reshuffled (the
    generator is consumed by the first shuffle only). *)
Theorem assemble_poem_enough_words words ws lines h g f o e :
  h !! words = Some ws -> 0 < lines -> 2 * lines <= len ws ->
  let n := Z.to_nat (clamped_quotient (len ws) lines) in
  let p := shuffled g ws in
  assemble_poem words lines (World h g f o e)
  = (Returns (map (fun j => join (py_str " ") (chunk n p j))
                  (seq 0 (Z.to_nat lines))),
     World (<[fresh (dom h) := p]> h) (gen_after_shuffle g (length ws)) f o e)
  /\ (forall j, (j < Z.to_nat lines)%nat -> length (chunk n p j) = n)
  /\ (Z.to_nat lines * n <= length ws)%nat.
Proof.
  intros Hw Hlines Hmany n p.
  pose proof (segment_size_of_bounds (len ws) lines) as Hseg.
  rewrite segment_size_of_clamped in Hseg.
  assert (Hq : 2 <= len ws / lines) by (apply Z.div_le_lower_bound; lia).
  assert (Hfit : clamped_quotient (len ws) lines * lines <= len ws).
  { pose proof (Z.mul_div_le (len ws) lines Hlines) as Hdiv.
    assert (clamped_quotient (len ws) lines <= len ws / lines).
    { unfold clamped_quotient.
      destruct (Z.ltb_spec (len ws / lines) 2); [lia|].
      destruct (Z.ltb_spec 5 (len ws / lines)); lia. }
    nia. }
  assert (Hfit' : (Z.to_nat lines * n <= length ws)%nat).
  { unfold n, len in *. nia. }
  assert (Hp : length p = length ws) by apply shuffled_length.
  split; [|split; [|exact Hfit']].
  - assert (Hne : ws <> []).
    { intros Heq. rewrite Heq in Hmany. unfold len in Hmany. simpl in Hmany. lia. }
    rewrite (assemble_poem_run words ws lines h g f o e Hw Hne) by lia.
    rewrite segment_size_of_clamped.
    replace (clamped_quotient (len ws) lines) with (Z.of_nat n) by (unfold n; lia).
    unfold first_state. fold p.
    change 0 with (Z.of_nat (0 * n)).
    rewrite (lines_from_chunks p _ n) by (unfold n in *; lia).
    reflexivity.
  - intros j Hj. unfold chunk. rewrite length_take, length_drop, Hp. nia.
Qed.

Lemma assemble_poem_enough_words_witness :
  let ws := [py_str "Haus"; py_str "Baum"; py_str "laufen"; py_str "sehen";
             py_str "Licht"] in
  let h : gmap nat (list str) := {[ 0%nat := ws ]} in
  let g := Rng (fun k => k) 0 in
  let n := Z.to_nat (clamped_quotient (len ws) 2) in
  let p := shuffled g ws in
  assemble_poem 0%nat 2 (World h g ∅ [] [])
  = (Returns (map (fun j => join (py_str " ") (chunk n p j))
                  (seq 0 (Z.to_nat 2))),
     World (<[fresh (dom h) := p]> h) (gen_after_shuffle g (length ws)) ∅ [] [])
  /\ (forall j, (j < Z.to_nat 2)%nat -> length (chunk n p j) = n)
  /\ (Z.to_nat 2 * n <= length ws)%nat.
Proof.
  apply (assemble_poem_enough_words 0%nat
           [py_str "Haus"; py_str "Baum"; py_str "laufen"; py_str "sehen";
            py_str "Licht"] 2
           {[ 0%nat := [py_str "Haus"; py_str "Baum"; py_str "laufen";
                        py_str "sehen"; py_str "Licht"] ]}
           (Rng (fun k => k) 0) ∅ [] []).
  - reflexivity.
  - lia.
  - vm_compute. discriminate.
Defined.

(** ** [assemble_poem]: a single word *)

Lemma shuffled_singleton g (x : str) : shuffled g [x] = [x].
Proof. reflexivity. Qed.

Lemma lines_from_single_word (x : str) g : forall count c out,
  c = 0 \/ 1 <= c ->
  exists c',
    lines_from 2 count (PoemState [x] g c out)
    = PoemState [x] g c' (out ++ replicate count x)
    /\ (c' = 0 \/ 1 <= c').
Proof.
  induction count as [|count IH]; intros c out Hc.
  - exists c. cbn. now rewrite app_nil_r.
  - cbn [lines_from].
    assert (Hstep : line_step 2 (PoemState [x] g c out)
                    = PoemState [x] g 2 (out ++ [x])).
    { unfold line_step; cbn [pool pgen cursor written].
      change (len [x]) with 1. change (length [x]) with 1%nat.
      destruct (Z.leb_spec 1 c) as [Hfull|Hleft].
      - rewrite shuffled_singleton. unfold gen_after_shuffle.
        destruct g as [d k]. cbn [draws consumed].
        now rewrite Nat.add_0_r.
      - assert (c = 0) as -> by lia. reflexivity. }
    rewrite Hstep.
    destruct (IH 2 (out ++ [x])) as (c' & Hrun & Hc'); [lia|].
    exists c'. split; [|assumption].
    rewrite Hrun. f_equal. rewrite <- app_assoc. reflexivity.
Qed.

(** X5.  For a word list of one word and a positive line count, every line
    of the poem is that word. *)
Theorem assemble_poem_single_word words x lines w :
  heap w !! words = Some [x] -> 0 < lines ->
  fst (assemble_poem words lines w) = Returns (replicate (Z.to_nat lines) x).
Proof.
  destruct w as [h g f o e]; cbn [heap]. intros Hw Hlines.
  rewrite (assemble_poem_run words [x] lines h g f o e Hw)
    by (discriminate || lia).
  assert (Hseg : segment_size_of (len [x]) lines = 2).
  { unfold segment_size_of. change (len [x]) with 1.
    destruct (Z.eq_dec lines 1) as [->|Hne]; [reflexivity|].
    rewrite Z.div_small by lia. reflexivity. }
  rewrite Hseg. unfold first_state. rewrite shuffled_singleton.
  destruct (lines_from_single_word x (gen_after_shuffle g (length [x]))
              (Z.to_nat lines) 0 []) as (c' & Hrun & _); [lia|].
  cbn [fst]. now rewrite Hrun.
Qed.

Lemma assemble_poem_single_word_witness :
  fst (assemble_poem 0%nat 6 (sample_world [py_str "Haus"]))
  = Returns (replicate (Z.to_nat 6) (py_str "Haus")).
Proof.
  apply (assemble_poem_single_word 0%nat (py_str "Haus") 6
           (sample_world [py_str "Haus"])).
  - reflexivity.
  - lia.
Defined.

(** ** [extract_nouns_verbs_heuristic]: tokens and their context *)

Section Tokens.

Context {unicode : UnicodeDB}.

Lemma runs_app_separator (p : char -> bool) (c : char) (b : str) :
  p c = false ->
  forall (a cur : str),
    runs p (a ++ c :: b) cur = runs p a cur ++ runs p b [].
Proof.
  intros Hc. induction a as [|x a IH]; intros cur; cbn [app runs].
  - now rewrite Hc.
  - destruct (p x); [apply IH|]. rewrite IH. now rewrite app_assoc.
Qed.

Lemma runs_maximal (p : char -> bool) (full : str) :
  forall (rest cur before : str),
    full = before ++ cur ++ rest ->
    forallb p cur = true ->
    starts_after p before ->
    forall t, t ∈ runs p rest cur -> maximal_run p full t.
Proof.
  induction rest as [|c r IH]; intros cur before Hfull Hcur Hbefore t Ht;
    cbn [runs] in Ht.
  - case_bool_decide as Hnil; [inversion Ht|].
    apply list_elem_of_singleton in Ht as ->.
    exists before, []. repeat split; assumption.
  - destruct (p c) eqn:Hc.
    + apply (IH (cur ++ [c]) before); try assumption.
      * now rewrite <- app_assoc.
      * rewrite forallb_app, Hcur. cbn. now rewrite Hc.
    + apply elem_of_app in Ht as [Ht|Ht].
      * case_bool_decide as Hnil; [inversion Ht|].
        apply list_elem_of_singleton in Ht as ->.
        exists before, (c :: r). repeat split; assumption.
      * apply (IH [] (before ++ cur ++ [c])); try assumption.
        -- rewrite Hfull. now rewrite <- !app_assoc.
        -- reflexivity.
        -- unfold starts_after. rewrite app_assoc, last_snoc. exact Hc.
Qed.

Lemma kept_true_inv (t : str) :
  kept t = true -> 2 <= len t /\ str_isdigit t = false.
Proof.
  unfold kept. destruct (Z.leb_spec (len t) 1) as [|Hlen]; [discriminate|].
  destruct (str_isdigit t); [discriminate|]. intros _. split; [lia|reflexivity].
Qed.

End Tokens.

(** X6.  The heuristic classifier works token by token: across a character
    that is not a word character, the words found in a text are the words
    found to its left followed by the words found to its right. *)
Theorem heuristic_splits_at_separator {unicode : UnicodeDB}
    (a b : str) (c : char) :
  is_word_char c = false ->
  extract_nouns_verbs_heuristic (a ++ c :: b)
  = extract_nouns_verbs_heuristic a ++ extract_nouns_verbs_heuristic b.
Proof.
  intros Hc. rewrite !heuristic_is_filter. unfold findall_words.
  rewrite (runs_app_separator is_word_char c b Hc). apply filter_app.
Qed.

Lemma heuristic_splits_at_separator_witness :
  @extract_nouns_verbs_heuristic Latin1.db
    (py_str "Der Apfel" ++ 10%N :: py_str "wir rennen")
  = @extract_nouns_verbs_heuristic Latin1.db (py_str "Der Apfel")
    ++ @extract_nouns_verbs_heuristic Latin1.db (py_str "wir rennen").
Proof.
  apply (@heuristic_splits_at_separator Latin1.db
           (py_str "Der Apfel") (py_str "wir rennen") 10%N).
  reflexivity.
Defined.

(** X7.  Every word that the heuristic classifier returns occurs in the
    text as a maximal run of word characters (it is a contiguous piece of
    the text, made of word characters only, with no word character next to
    it on either side), has at least two characters and is not purely
    numeric. *)
Theorem heuristic_words_are_tokens {unicode : UnicodeDB} (text word : str) :
  word ∈ extract_nouns_verbs_heuristic text ->
  maximal_run is_word_char text word
  /\ 2 <= len word
  /\ str_isdigit word = false.
Proof.
  rewrite heuristic_is_filter. intros Hin.
  apply list_elem_of_filter in Hin as [Hkept Htoken].
  split; [|now apply kept_true_inv].
  apply (runs_maximal is_word_char text text [] [] eq_refl eq_refl I word Htoken).
Qed.

Lemma heuristic_words_are_tokens_witness :
  @maximal_run (@is_word_char Latin1.db) (py_str "Der Apfel, 42!") (py_str "Apfel")
  /\ 2 <= len (py_str "Apfel")
  /\ @str_isdigit Latin1.db (py_str "Apfel") = false.
Proof.
  apply (@heuristic_words_are_tokens Latin1.db
           (py_str "Der Apfel, 42!") (py_str "Apfel")).
  apply list_elem_of_In. vm_compute. auto.
Defined.

(** ** [extract_nouns_verbs_spacy] and [load_spacy_pipeline] *)

Section Spacy.

Context {ext : Collaborators}.

Lemma fold_spacy_body (doc : list token) : forall words,
  fold_left spacy_body doc words
  = words ++ (text <$> filter content_token doc).
Proof.
  induction doc as [|t doc IH]; intros words; cbn [fold_left].
  - cbn. now rewrite app_nil_r.
  - rewrite IH. unfold spacy_body. rewrite filter_cons.
    destruct (is_alpha t) eqn:Halpha; cbn [negb].
    + case_bool_decide as Htag.
      * rewrite decide_True by (split; assumption).
        rewrite fmap_cons. now rewrite <- app_assoc.
      * rewrite decide_False by (intros [_ ?]; contradiction). reflexivity.
    + rewrite decide_False by (intros [? _]; congruence). reflexivity.
Qed.

(** X8.  [extract_nouns_verbs_spacy] returns, in document order and with
    repetitions, the text of exactly those tokens that are alphabetic and
    tagged NOUN, PROPN, VERB or AUX; it changes nothing, and when the
    pipeline raises, so does it. *)
Theorem extract_nouns_verbs_spacy_filter (txt : str) (nlp : Language) (w : world) :
  extract_nouns_verbs_spacy txt nlp w
  = (match nlp_call nlp txt with
     | Returns doc => Returns (text <$> filter content_token doc)
     | Raises e => Raises e
     end, w).
Proof.
  unfold extract_nouns_verbs_spacy, bind, lift, ret.
  destruct (nlp_call nlp txt) as [doc|e]; [|reflexivity].
  now rewrite fold_spacy_body.
Qed.

Lemma model_names_other (lang : str) :
  lang <> py_str "de" -> lang <> py_str "en" -> model_names !! lang = None.
Proof.
  intros Hde Hen. unfold model_names.
  rewrite lookup_insert_ne by congruence.
  now rewrite lookup_singleton_ne by congruence.
Qed.

(** X9.  [load_spacy_pipeline] absorbs every failure that is an
    [Exception]: it never raises one and never changes the state.  It
    answers [None] when spaCy is not installed and for every language code
    other than "de" and "en", without calling [spacy.load]; and when it
    answers with a pipeline, that pipeline is what [spacy.load] returned for
    the model mapped to the language. *)
Theorem load_spacy_pipeline_absorbs (lang : str) (w : world) :
  snd (load_spacy_pipeline lang w) = w
  /\ (forall e, fst (load_spacy_pipeline lang w) = Raises e ->
                is_Exception e = false)
  /\ (spacy = None -> fst (load_spacy_pipeline lang w) = Returns None)
  /\ (lang <> py_str "de" -> lang <> py_str "en" ->
      fst (load_spacy_pipeline lang w) = Returns None)
  /\ (forall nlp, fst (load_spacy_pipeline lang w) = Returns (Some nlp) ->
                  exists spacy_load model_name,
                    spacy = Some spacy_load
                    /\ model_names !! lang = Some model_name
                    /\ spacy_load model_name = Returns nlp).
Proof.
  unfold load_spacy_pipeline.
  destruct spacy as [spacy_load|] eqn:Hspacy.
  2:{ cbn. repeat split; try discriminate; auto. }
  destruct (model_names !! lang) as [model_name|] eqn:Hmodel.
  2:{ cbn. repeat split; try discriminate; auto. }
  unfold try_except_Exception, bind, lift, ret.
  destruct (spacy_load model_name) as [nlp|e] eqn:Hload.
  - cbn. split; [reflexivity|]. split; [discriminate|]. split; [discriminate|].
    split.
    + intros Hde Hen. rewrite model_names_other in Hmodel by assumption.
      discriminate.
    + intros nlp' [= <-]. eauto.
  - destruct (is_Exception e) eqn:Hexc; cbn.
    + split; [reflexivity|]. split; [discriminate|]. split; [discriminate|].
      split; [reflexivity|discriminate].
    + split; [reflexivity|]. split; [now intros e' [= <-]|].
      split; [discriminate|]. split; [|discriminate].
      intros Hde Hen. rewrite model_names_other in Hmodel by assumption.
      discriminate.
Qed.

End Spacy.

(** ** [main] and [generate]: from the text to the poem *)

Section Pipeline.

Context {unicode : UnicodeDB} {ext : Collaborators}.

Lemma load_spacy_pipeline_run lang w w0 :
  load_spacy_pipeline lang w = (fst (load_spacy_pipeline lang w0), w).
Proof.
  unfold load_spacy_pipeline. destruct spacy as [spacy_load|]; [|reflexivity].
  destruct (model_names !! lang) as [model_name|]; [|reflexivity].
  unfold try_except_Exception, bind, lift, ret.
  destruct (spacy_load model_name) as [nlp|e]; [reflexivity|].
  now destruct (is_Exception e).
Qed.

Lemma classify_run nlp txt ws w :
  candidate_words nlp txt = Returns ws ->
  match nlp with
  | Some nlp => extract_nouns_verbs_spacy txt nlp
  | None => ret (extract_nouns_verbs_heuristic txt)
  end w = (Returns ws, w).
Proof.
  unfold candidate_words. destruct nlp as [nlp|].
  - unfold extract_nouns_verbs_spacy, bind, lift, ret.
    destruct (nlp_call nlp txt) as [doc|e]; [|discriminate].
    intros [= <-]. now rewrite fold_spacy_body.
  - now intros [= <-].
Qed.

(** A new list of words, handed to [assemble_poem]. *)
Lemma poem_of_new_list ws lines w :
  ws <> [] -> 0 < lines ->
  exists poem h' g',
    (words <- new_list ws ;; assemble_poem words lines) w
    = (Returns poem, World h' g' (fs w) (stdout w) (stderr w))
    /\ length poem = Z.to_nat lines
    /\ forall line, line ∈ poem ->
                    nonempty_line_of ws (clamped_quotient (len ws) lines) line.
Proof.
  intros Hne Hlines. destruct w as [h g f o e].
  erewrite bind_returns by reflexivity.
  unfold set_heap; cbn [heap gen fs stdout stderr].
  rewrite (assemble_poem_run _ ws lines _ g f o e (lookup_insert_eq _ _ _) Hne)
    by lia.
  do 3 eexists. split; [reflexivity|]. split.
  - rewrite lines_from_count. cbn [first_state written length]. lia.
  - intros line Hline.
    pose proof (segment_size_of_bounds (len ws) lines) as Hseg.
    destruct (lines_from_inv_nonempty ws (segment_size_of (len ws) lines)
                (Z.to_nat lines) (first_state ws g)) as (_ & _ & Hall);
      [assumption|lia| |].
    { unfold poem_inv_nonempty, first_state; cbn [pool cursor written].
      split; [apply shuffled_perm|]. split; [lia|constructor]. }
    rewrite Forall_forall in Hall. rewrite <- segment_size_of_clamped.
    now apply Hall.
Qed.

(** [main] up to the list of candidate words. *)
Lemma main_upto_words image lang w txt nlp ws :
  is_Some (fs w !! image) ->
  extract_text image w = (Returns txt, w) ->
  strip txt <> [] ->
  fst (load_spacy_pipeline (language_of lang txt) w) = Returns nlp ->
  candidate_words nlp txt = Returns ws ->
  main image lang w
  = ((if bool_decide (ws = []) then
        print (py_str "Keine Substantive oder Verben gefunden (no nouns or verbs found).") ;;;
        sys_exit 0
      else ret tt) ;;;
     words <- new_list ws ;;
     poem_lines <- assemble_poem words 6 ;;
     print [] ;;;
     print (join [10%N] poem_lines)) w.
Proof.
  intros Hfile Htext Hblank Hload Hws. unfold main.
  erewrite bind_returns.
  2:{ unfold os_path_isfile. now rewrite bool_decide_eq_true_2 by assumption. }
  cbn [negb]. erewrite bind_returns by reflexivity.
  erewrite bind_returns by exact Htext.
  rewrite bool_decide_eq_false_2 by assumption.
  erewrite bind_returns by reflexivity.
  cbv zeta. fold (language_of lang txt).
  erewrite bind_returns.
  2:{ rewrite (load_spacy_pipeline_run _ w w), Hload. reflexivity. }
  erewrite bind_returns by (apply classify_run; exact Hws).
  reflexivity.
Qed.

End Pipeline.

(** ** [main] *)

(** X10.  When the path names no file, [main] writes "Error: file '...'
    does not exist." to the error stream and exits with code 1; it prints
    nothing to the output stream and calls neither the OCR nor the
    classifier. *)
Theorem main_missing_file {unicode : UnicodeDB} {ext : Collaborators}
    (image : str) (lang : option str) (w : world) :
  fs w !! image = None ->
  main image lang w
  = (Raises (SystemExit 1),
     World (heap w) (gen w) (fs w) (stdout w)
           (stderr w ++ [missing_file_message image])).
Proof.
  intros Hnone. unfold main.
  erewrite bind_returns.
  2:{ unfold os_path_isfile. rewrite bool_decide_eq_false_2; [reflexivity|].
      rewrite Hnone. now intros [? ?]. }
  cbn [negb]. erewrite bind_raises; [reflexivity|].
  erewrite bind_returns by reflexivity. reflexivity.
Qed.

Lemma main_missing_file_witness :
  @main Latin1.db toy_collaborators (py_str "nowhere.png") None empty_world
  = (Raises (SystemExit 1),
     World (heap empty_world) (gen empty_world) (fs empty_world)
           (stdout empty_world)
           (stderr empty_world ++ [missing_file_message (py_str "nowhere.png")])).
Proof.
  apply (@main_missing_file Latin1.db toy_collaborators
           (py_str "nowhere.png") None empty_world).
  reflexivity.
Defined.

(** X11.  When the OCR text is not blank but the classifier in use (the
    pipeline if one was loaded, the heuristic otherwise) finds no word,
    [main] prints "Keine Substantive oder Verben gefunden (no nouns or verbs
    found)." and exits with code 0; no poem is assembled and no random
    number is drawn. *)
Theorem main_no_words {unicode : UnicodeDB} {ext : Collaborators}
    (image : str) (lang : option str) (w : world) (txt : str)
    (nlp : option Language) :
  is_Some (fs w !! image) ->
  extract_text image w = (Returns txt, w) ->
  strip txt <> [] ->
  fst (load_spacy_pipeline (language_of lang txt) w) = Returns nlp ->
  candidate_words nlp txt = Returns [] ->
  main image lang w
  = (Raises (SystemExit 0),
     World (heap w) (gen w) (fs w)
           (stdout w ++ [py_str "Keine Substantive oder Verben gefunden (no nouns or verbs found)."])
           (stderr w)).
Proof.
  intros Hfile Htext Hblank Hload Hws.
  rewrite (main_upto_words image lang w txt nlp [] Hfile Htext Hblank Hload Hws).
  rewrite bool_decide_eq_true_2 by reflexivity.
  erewrite bind_raises; [reflexivity|].
  erewrite bind_returns by reflexivity. reflexivity.
Qed.

Lemma main_no_words_witness :
  let w := one_file_world (py_str "c.png") (py_str "a b 12 ; x") in
  @main Latin1.db toy_collaborators (py_str "c.png") None w
  = (Raises (SystemExit 0),
     World (heap w) (gen w) (fs w)
           (stdout w ++ [py_str "Keine Substantive oder Verben gefunden (no nouns or verbs found)."])
           (stderr w)).
Proof.
  apply (@main_no_words Latin1.db toy_collaborators (py_str "c.png") None
           (one_file_world (py_str "c.png") (py_str "a b 12 ; x"))
           (py_str "a b 12 ; x") None).
  - eexists. vm_compute. reflexivity.
  - vm_compute. reflexivity.
  - vm_compute. discriminate.
  - vm_compute. reflexivity.
  - vm_compute. reflexivity.
Defined.

(** X12.  When the OCR text is not blank and the classifier in use finds
    the words [ws], [main] returns normally after printing an empty line
    and then the poem, its lines joined by newlines: six lines, each the
    join of at least one and at most [segment_size] words of [ws].  The
    error stream and the file system are as before. *)
Theorem main_prints_poem {unicode : UnicodeDB} {ext : Collaborators}
    (image : str) (lang : option str) (w : world) (txt : str)
    (nlp : option Language) (ws : list str) :
  is_Some (fs w !! image) ->
  extract_text image w = (Returns txt, w) ->
  strip txt <> [] ->
  fst (load_spacy_pipeline (language_of lang txt) w) = Returns nlp ->
  candidate_words nlp txt = Returns ws ->
  ws <> [] ->
  exists poem h' g',
    main image lang w
    = (Returns tt,
       World h' g' (fs w) (stdout w ++ [[]; join [10%N] poem]) (stderr w))
    /\ length poem = 6%nat
    /\ forall line, line ∈ poem ->
                    nonempty_line_of ws (clamped_quotient (len ws) 6) line.
Proof.
  intros Hfile Htext Hblank Hload Hws Hne.
  rewrite (main_upto_words image lang w txt nlp ws Hfile Htext Hblank Hload Hws).
  rewrite bool_decide_eq_false_2 by assumption.
  erewrite bind_returns by reflexivity.
  destruct (poem_of_new_list ws 6 w Hne) as (poem & h' & g' & Hrun & Hlen & Hlines);
    [lia|].
  exists poem, h', g'. split; [|split; assumption].
  unfold bind in Hrun |- *.
  destruct (new_list ws w) as [[words|e0] w1]; [|discriminate].
  rewrite Hrun. unfold print; cbn [heap gen fs stdout stderr].
  now rewrite <- app_assoc.
Qed.

Lemma main_prints_poem_witness :
  let w := one_file_world (py_str "c.png") (py_str "Der Apfel ist rot") in
  let ws := [py_str "Der"; py_str "Apfel"; py_str "ist"; py_str "rot"] in
  exists poem h' g',
    @main Latin1.db toy_collaborators (py_str "c.png") None w
    = (Returns tt,
       World h' g' (fs w) (stdout w ++ [[]; join [10%N] poem]) (stderr w))
    /\ length poem = 6%nat
    /\ forall line, line ∈ poem ->
                    nonempty_line_of ws (clamped_quotient (len ws) 6) line.
Proof.
  apply (@main_prints_poem Latin1.db toy_collaborators (py_str "c.png") None
           (one_file_world (py_str "c.png") (py_str "Der Apfel ist rot"))
           (py_str "Der Apfel ist rot") None).
  - eexists. vm_compute. reflexivity.
  - vm_compute. reflexivity.
  - vm_compute. discriminate.
  - vm_compute. reflexivity.
  - vm_compute. reflexivity.
  - discriminate.
Defined.

Section MainFrame.

Context {unicode : UnicodeDB} {ext : Collaborators}.

Lemma keeps_files_extract_text path : keeps_files (extract_text path).
Proof. intros w. now rewrite extract_text_state. Qed.

Lemma keeps_files_print line : keeps_files (print line).
Proof. now intros w. Qed.

Lemma keeps_files_print_stderr line : keeps_files (print_stderr line).
Proof. now intros w. Qed.

End MainFrame.

(** X13.  [main] never creates, changes or removes a file, on whatever path
    it is left: by a normal return, by [sys.exit] or by an exception. *)
Theorem main_keeps_files {unicode : UnicodeDB} {ext : Collaborators}
    (image : str) (lang : option str) (w : world) :
  fs (snd (main image lang w)) = fs w.
Proof.
  revert w. change (keeps_files (main image lang)). unfold main.
  apply keeps_files_bind; [now intros w|]. intros isfile.
  apply keeps_files_bind.
  { destruct (negb isfile); [|apply keeps_files_ret].
    apply keeps_files_bind; [apply keeps_files_print_stderr|].
    intros _. apply keeps_files_raise. }
  intros _. apply keeps_files_bind; [apply keeps_files_extract_text|].
  intros txt. apply keeps_files_bind.
  { destruct (bool_decide (strip txt = [])); [|apply keeps_files_ret].
    apply keeps_files_bind; [apply keeps_files_print|].
    intros _. apply keeps_files_raise. }
  intros _. cbv zeta.
  apply keeps_files_bind; [apply keeps_files_load_spacy_pipeline|].
  intros nlp. apply keeps_files_bind.
  { destruct nlp; [apply keeps_files_extract_nouns_verbs_spacy
                  |apply keeps_files_ret]. }
  intros ws. apply keeps_files_bind.
  { destruct (bool_decide (ws = [])); [|apply keeps_files_ret].
    apply keeps_files_bind; [apply keeps_files_print|].
    intros _. apply keeps_files_raise. }
  intros _. apply keeps_files_bind; [apply keeps_files_new_list|].
  intros words. apply keeps_files_bind; [apply keeps_files_assemble_poem|].
  intros poem_lines. apply keeps_files_bind; [apply keeps_files_print|].
  intros _. apply keeps_files_print.
Qed.

(** ** [generate] *)

Section Handler.

Context {unicode : UnicodeDB} {ext : Collaborators}.

Lemma mkstemp_inner_raises suffix tries : forall seq w e w',
  mkstemp_inner suffix seq tries w = (Raises e, w') -> w' = w.
Proof.
  induction tries as [|tries IH]; intros seq w e w'; cbn [mkstemp_inner].
  - now intros [= _ <-].
  - destruct (fs w !! (temp_candidates seq ++ suffix)); [apply IH|discriminate].
Qed.

(** The part of [generate] after [os.unlink] leaves the files alone. *)
Lemma keeps_files_generate_tail (txt : str) :
  keeps_files
    (if bool_decide (strip txt = [])
     then ret (JsonError 400 (py_str "Kein Text im Bild gefunden."))
     else
       let lang := detect_language txt in
       nlp <- load_spacy_pipeline lang ;;
       ws <- match nlp with
             | Some nlp => extract_nouns_verbs_spacy txt nlp
             | None => ret (extract_nouns_verbs_heuristic txt)
             end ;;
       poem_lines <-
         (if bool_decide (ws = [])
          then ret (replicate 6 (py_str "Keine Substantive oder Verben gefunden"))
          else words <- new_list ws ;; assemble_poem words 6) ;;
       ret (Page (join [10%N] poem_lines))).
Proof.
  destruct (bool_decide (strip txt = [])); [apply keeps_files_ret|].
  apply keeps_files_bind; [apply keeps_files_load_spacy_pipeline|].
  intros nlp. apply keeps_files_bind.
  - destruct nlp; [apply keeps_files_extract_nouns_verbs_spacy
                  |apply keeps_files_ret].
  - intros ws. apply keeps_files_bind; [|intros ?; apply keeps_files_ret].
    destruct (bool_decide (ws = [])); [apply keeps_files_ret|].
    apply keeps_files_bind; [apply keeps_files_new_list|].
    intros words. apply keeps_files_assemble_poem.
Qed.

Lemma generate_fs_cases files file w tmp w1 :
  files !! py_str "image" = Some file -> filename file <> [] ->
  NamedTemporaryFile (py_str ".png") w = (Returns tmp, w1) ->
  fs (snd (generate files w))
  = match fst (extract_text tmp (saved file tmp w)) with
    | Returns _ => fs w
    | Raises _ => <[tmp := contents file]> (fs w)
    end.
Proof.
  intros Hfile Hname Htmp.
  destruct (NamedTemporaryFile_fresh _ _ _ _ Htmp) as [Hfresh _].
  rewrite (generate_upto_ocr files file w tmp w1 Hfile Hname Htmp).
  destruct (fst (extract_text tmp (saved file tmp w))) as [txt|e] eqn:Hocr.
  - erewrite bind_returns by (apply extract_text_pair; exact Hocr).
    rewrite bind_fs by (intros _; apply keeps_files_generate_tail).
    unfold os_unlink, saved, set_fs; cbn [fs]. rewrite lookup_insert_eq.
    cbn [snd fs]. rewrite delete_insert_eq. now apply delete_id.
  - erewrite bind_raises by (apply extract_text_pair; exact Hocr).
    reflexivity.
Qed.

Lemma generate_without_upload_state files w :
  files !! py_str "image" = None
  \/ (exists file, files !! py_str "image" = Some file /\ filename file = []) ->
  snd (generate files w) = w.
Proof.
  unfold generate. intros [Hnone|(file & Hfile & Hname)].
  - now rewrite Hnone.
  - rewrite Hfile. now rewrite bool_decide_eq_true_2 by assumption.
Qed.

End Handler.

(** X14.  Without a part named "image" in the request, or with one whose
    file name is empty, [generate] answers with the error "Keine Datei
    hochgeladen." and status 400 and touches nothing: no temporary file is
    created and the OCR is not called. *)
Theorem generate_without_upload {unicode : UnicodeDB} {ext : Collaborators}
    (files : gmap str upload) (w : world) :
  (files !! py_str "image" = None
   \/ exists file, files !! py_str "image" = Some file /\ filename file = []) ->
  generate files w
  = (Returns (JsonError 400 (py_str "Keine Datei hochgeladen.")), w).
Proof.
  unfold generate. intros [Hnone|(file & Hfile & Hname)].
  - now rewrite Hnone.
  - rewrite Hfile. now rewrite bool_decide_eq_true_2 by assumption.
Qed.

Lemma generate_without_upload_witness :
  @generate Latin1.db toy_collaborators
    {[ py_str "image" := Upload [] (py_str "Der Apfel") ]} empty_world
  = (Returns (JsonError 400 (py_str "Keine Datei hochgeladen.")), empty_world).
Proof.
  apply (@generate_without_upload Latin1.db toy_collaborators
           {[ py_str "image" := Upload [] (py_str "Der Apfel") ]} empty_world).
  right. exists (Upload [] (py_str "Der Apfel")). split; reflexivity.
Defined.

(** X15.  Whenever [extract_text] returns, the file system after [generate]
    is exactly the one before it, whatever the handler does afterwards
    (the blank-text answer, the page, or an exception of the classifier):
    the temporary file is gone and no other file was touched. *)
Theorem generate_restores_files {unicode : UnicodeDB} {ext : Collaborators}
    (files : gmap str upload) (file : upload) (w w1 : world) (tmp txt : str) :
  files !! py_str "image" = Some file -> filename file <> [] ->
  NamedTemporaryFile (py_str ".png") w = (Returns tmp, w1) ->
  fst (extract_text tmp (saved file tmp w)) = Returns txt ->
  fs (snd (generate files w)) = fs w.
Proof.
  intros Hfile Hname Htmp Hocr.
  rewrite (generate_fs_cases files file w tmp w1 Hfile Hname Htmp).
  now rewrite Hocr.
Qed.

Lemma generate_restores_files_witness :
  let w := one_file_world (py_str "/tmp/tmp.png") (py_str "old") in
  fs (snd (@generate Latin1.db toy_collaborators
             (toy_request (py_str "Der Apfel ist rot")) w))
  = fs w.
Proof.
  apply (@generate_restores_files Latin1.db toy_collaborators
           (toy_request (py_str "Der Apfel ist rot"))
           (Upload (py_str "shot.png") (py_str "Der Apfel ist rot"))
           (one_file_world (py_str "/tmp/tmp.png") (py_str "old"))
           (set_fs (<[py_str "/tmp/tmpx.png" := []]>
                      {[ py_str "/tmp/tmp.png" := py_str "old" ]})
                   (one_file_world (py_str "/tmp/tmp.png") (py_str "old")))
           (py_str "/tmp/tmpx.png") (py_str "Der Apfel ist rot")).
  - vm_compute. reflexivity.
  - vm_compute. discriminate.
  - vm_compute. reflexivity.
  - vm_compute. reflexivity.
Defined.

(** X16.  [generate] never overwrites or removes a file that existed before
    the request, on any path: the name of the temporary file is one that
    did not exist. *)
Theorem generate_keeps_existing_files {unicode : UnicodeDB} {ext : Collaborators}
    (files : gmap str upload) (w : world) (path : str) (data : bytes) :
  fs w !! path = Some data ->
  fs (snd (generate files w)) !! path = Some data.
Proof.
  intros Hpath.
  destruct (files !! py_str "image") as [file|] eqn:Hfile.
  2:{ rewrite generate_without_upload_state; auto. }
  destruct (decide (filename file = [])) as [Hname|Hname].
  { rewrite generate_without_upload_state; eauto. }
  destruct (NamedTemporaryFile (py_str ".png") w) as [[tmp|e] w1] eqn:Htmp.
  - rewrite (generate_fs_cases files file w tmp w1 Hfile Hname Htmp).
    destruct (NamedTemporaryFile_fresh _ _ _ _ Htmp) as [Hfresh _].
    destruct (fst (extract_text tmp (saved file tmp w))); [assumption|].
    rewrite lookup_insert_ne; [assumption|]. congruence.
  - unfold generate. rewrite Hfile.
    rewrite bool_decide_eq_false_2 by assumption.
    erewrite bind_raises by exact Htmp.
    cbn [snd]. unfold NamedTemporaryFile in Htmp.
    now rewrite (mkstemp_inner_raises _ _ _ _ _ _ Htmp).
Qed.

Lemma generate_keeps_existing_files_witness :
  let w := one_file_world (py_str "/tmp/tmp.png") (py_str "old") in
  fs (snd (@generate Latin1.db toy_collaborators (toy_request [0%N]) w))
  !! py_str "/tmp/tmp.png" = Some (py_str "old").
Proof.
  apply (@generate_keeps_existing_files Latin1.db toy_collaborators
           (toy_request [0%N])
           (one_file_world (py_str "/tmp/tmp.png") (py_str "old"))
           (py_str "/tmp/tmp.png") (py_str "old")).
  vm_compute. reflexivity.
Defined.

Section HandlerPage.

Context {unicode : UnicodeDB} {ext : Collaborators}.

(** [generate] up to the list of candidate words. *)
Lemma generate_upto_words files file w tmp w1 txt nlp ws :
  files !! py_str "image" = Some file -> filename file <> [] ->
  NamedTemporaryFile (py_str ".png") w = (Returns tmp, w1) ->
  fst (extract_text tmp (saved file tmp w)) = Returns txt ->
  strip txt <> [] ->
  fst (load_spacy_pipeline (detect_language txt) w) = Returns nlp ->
  candidate_words nlp txt = Returns ws ->
  generate files w
  = (poem_lines <-
       (if bool_decide (ws = [])
        then ret (replicate 6 (py_str "Keine Substantive oder Verben gefunden"))
        else words <- new_list ws ;; assemble_poem words 6) ;;
     ret (Page (join [10%N] poem_lines))) (unlinked file tmp w).
Proof.
  intros Hfile Hname Htmp Hocr Hblank Hload Hws.
  rewrite (generate_upto_ocr files file w tmp w1 Hfile Hname Htmp).
  erewrite bind_returns by (apply extract_text_pair; exact Hocr).
  erewrite bind_returns.
  2:{ unfold os_unlink, saved, set_fs; cbn [fs]. rewrite lookup_insert_eq.
      reflexivity. }
  rewrite bool_decide_eq_false_2 by assumption. cbv zeta.
  erewrite bind_returns.
  2:{ rewrite (load_spacy_pipeline_run _ _ w), Hload. reflexivity. }
  erewrite bind_returns by (apply classify_run; exact Hws).
  reflexivity.
Qed.

End HandlerPage.

(** X17.  When the text is not blank but the classifier in use finds no
    word, [generate] does not answer with an error: it returns the page,
    whose poem is six times the line "Keine Substantive oder Verben
    gefunden"; [assemble_poem] is not called. *)
Theorem generate_page_without_words {unicode : UnicodeDB} {ext : Collaborators}
    (files : gmap str upload) (file : upload) (w w1 : world) (tmp txt : str)
    (nlp : option Language) :
  files !! py_str "image" = Some file -> filename file <> [] ->
  NamedTemporaryFile (py_str ".png") w = (Returns tmp, w1) ->
  fst (extract_text tmp (saved file tmp w)) = Returns txt ->
  strip txt <> [] ->
  fst (load_spacy_pipeline (detect_language txt) w) = Returns nlp ->
  candidate_words nlp txt = Returns [] ->
  generate files w
  = (Returns (Page (join [10%N]
                (replicate 6 (py_str "Keine Substantive oder Verben gefunden")))),
     unlinked file tmp w).
Proof.
  intros Hfile Hname Htmp Hocr Hblank Hload Hws.
  rewrite (generate_upto_words files file w tmp w1 txt nlp []
             Hfile Hname Htmp Hocr Hblank Hload Hws).
  now rewrite bool_decide_eq_true_2 by reflexivity.
Qed.

Lemma generate_page_without_words_witness :
  @generate Latin1.db toy_collaborators (toy_request (py_str "a b 12 ; x"))
            empty_world
  = (Returns (Page (join [10%N]
                (replicate 6 (py_str "Keine Substantive oder Verben gefunden")))),
     unlinked (Upload (py_str "shot.png") (py_str "a b 12 ; x"))
              (py_str "/tmp/tmp.png") empty_world).
Proof.
  apply (@generate_page_without_words Latin1.db toy_collaborators
           (toy_request (py_str "a b 12 ; x"))
           (Upload (py_str "shot.png") (py_str "a b 12 ; x")) empty_world
           (set_fs {[ py_str "/tmp/tmp.png" := [] ]} empty_world)
           (py_str "/tmp/tmp.png") (py_str "a b 12 ; x") None).
  - vm_compute. reflexivity.
  - vm_compute. discriminate.
  - vm_compute. reflexivity.
  - vm_compute. reflexivity.
  - vm_compute. discriminate.
  - vm_compute. reflexivity.
  - vm_compute. reflexivity.
Defined.

(** X18.  When the text is not blank and the classifier in use finds the
    words [ws], [generate] returns the page with a poem of six lines joined
    by newlines, each line the join of at least one and at most
    [segment_size] words of [ws]; it prints nothing and leaves the file
    system as it found it. *)
Theorem generate_page_with_poem {unicode : UnicodeDB} {ext : Collaborators}
    (files : gmap str upload) (file : upload) (w w1 : world) (tmp txt : str)
    (nlp : option Language) (ws : list str) :
  files !! py_str "image" = Some file -> filename file <> [] ->
  NamedTemporaryFile (py_str ".png") w = (Returns tmp, w1) ->
  fst (extract_text tmp (saved file tmp w)) = Returns txt ->
  strip txt <> [] ->
  fst (load_spacy_pipeline (detect_language txt) w) = Returns nlp ->
  candidate_words nlp txt = Returns ws ->
  ws <> [] ->
  exists poem h' g',
    generate files w
    = (Returns (Page (join [10%N] poem)),
       World h' g' (fs w) (stdout w) (stderr w))
    /\ length poem = 6%nat
    /\ forall line, line ∈ poem ->
                    nonempty_line_of ws (clamped_quotient (len ws) 6) line.
Proof.
  intros Hfile Hname Htmp Hocr Hblank Hload Hws Hne.
  rewrite (generate_upto_words files file w tmp w1 txt nlp ws
             Hfile Hname Htmp Hocr Hblank Hload Hws).
  rewrite bool_decide_eq_false_2 by assumption.
  destruct (poem_of_new_list ws 6 (unlinked file tmp w) Hne)
    as (poem & h' & g' & Hrun & Hlen & Hlines); [lia|].
  exists poem, h', g'. split; [|split; assumption].
  erewrite bind_returns by exact Hrun.
  destruct (NamedTemporaryFile_fresh _ _ _ _ Htmp) as [Hfresh _].
  unfold ret, unlinked, saved, set_fs; cbn [heap gen fs stdout stderr].
  rewrite delete_insert_eq. now rewrite delete_id by assumption.
Qed.

Lemma generate_page_with_poem_witness :
  let ws := [py_str "Der"; py_str "Apfel"; py_str "ist"; py_str "rot"] in
  exists poem h' g',
    @generate Latin1.db toy_collaborators
      (toy_request (py_str "Der Apfel ist rot")) empty_world
    = (Returns (Page (join [10%N] poem)),
       World h' g' (fs empty_world) (stdout empty_world) (stderr empty_world))
    /\ length poem = 6%nat
    /\ forall line, line ∈ poem ->
                    nonempty_line_of ws (clamped_quotient (len ws) 6) line.
Proof.
  apply (@generate_page_with_poem Latin1.db toy_collaborators
           (toy_request (py_str "Der Apfel ist rot"))
           (Upload (py_str "shot.png") (py_str "Der Apfel ist rot")) empty_world
           (set_fs {[ py_str "/tmp/tmp.png" := [] ]} empty_world)
           (py_str "/tmp/tmp.png") (py_str "Der Apfel ist rot") None).
  - vm_compute. reflexivity.
  - vm_compute. discriminate.
  - vm_compute. reflexivity.
  - vm_compute. reflexivity.
  - vm_compute. discriminate.
  - vm_compute. reflexivity.
  - vm_compute. reflexivity.
  - discriminate.
Defined.

(** ** [detect_language]: longer texts *)

(** X19.  The guess for a text put together from two parts is German as
    soon as the guess for one part is: more text can turn "en" into "de",
    never "de" into "en". *)
Theorem detect_language_app (a b : str) :
  detect_language (a ++ b)
  = if bool_decide (detect_language a = py_str "de"
                    \/ detect_language b = py_str "de")
    then py_str "de" else py_str "en".
Proof.
  unfold detect_language at 1. rewrite existsb_app.
  assert (Hde : forall s : str,
             detect_language s = py_str "de"
             <-> existsb (fun ch => bool_decide (ch ∈ german_chars)) s = true).
  { intros s. unfold detect_language.
    destruct (existsb _ s); split; try reflexivity; intros H;
      vm_compute in H; discriminate. }
  case_bool_decide as Hcase.
  - destruct Hcase as [Ha|Hb].
    + apply Hde in Ha. now rewrite Ha.
    + apply Hde in Hb. rewrite Hb. now rewrite orb_true_r.
  - destruct (existsb _ a) eqn:Ha.
    + destruct Hcase. left. now apply Hde.
    + destruct (existsb _ b) eqn:Hb; [|reflexivity].
      destruct Hcase. right. now apply Hde.
Qed.

(** ** [generate]: the blank-text answer *)

Section Blank.

Context {unicode : UnicodeDB} {ext : Collaborators}.

Lemma lstrip_nil_iff (s : str) : lstrip s = [] <-> forallb isspace s = true.
Proof.
  induction s as [|c s IH]; cbn [lstrip forallb]; [now split|].
  destruct (isspace c); cbn [andb]; [exact IH|]. split; discriminate.
Qed.

Lemma strip_nil_iff (s : str) : strip s = [] <-> forallb isspace s = true.
Proof.
  unfold strip. split.
  - intros Hnil. apply lstrip_nil_iff.
    apply (f_equal (@rev N)) in Hnil. rewrite rev_involutive in Hnil.
    cbn in Hnil. apply lstrip_nil_iff in Hnil.
    destruct (lstrip s) as [|c r] eqn:Hs; [reflexivity|].
    exfalso. rewrite forallb_forall in Hnil.
    assert (Hc : isspace c = true).
    { apply Hnil. apply in_rev. rewrite rev_involutive. now left. }
    destruct s as [|c' s']; [discriminate|]. cbn [lstrip] in Hs.
    revert Hs. clear -Hc. revert c' c r Hc.
    induction s' as [|x s' IH]; intros c' c r Hc; cbn [lstrip].
    + destruct (isspace c') eqn:Hc'; [discriminate|]. intros [= <- <-]. congruence.
    + destruct (isspace c') eqn:Hc'.
      * apply IH. exact Hc.
      * intros [= <- <-]. congruence.
  - intros Hall. apply lstrip_nil_iff in Hall. now rewrite Hall.
Qed.

Lemma bind_never_returns {A B} (m : M A) (k : A -> M B) (b : B) w :
  (forall a w', fst (k a w') <> Returns b) -> fst (bind m k w) <> Returns b.
Proof.
  intros Hk. unfold bind. destruct (m w) as [[a|e] w']; [apply Hk|discriminate].
Qed.

End Blank.

(** X20.  Once the upload has been saved and [extract_text] has returned
    the text [txt], [generate] answers with the error "Kein Text im Bild
    gefunden." exactly when every character of [txt] is whitespace (the
    empty text included). *)
Theorem generate_blank_text_iff {unicode : UnicodeDB} {ext : Collaborators}
    (files : gmap str upload) (file : upload) (w w1 : world) (tmp txt : str) :
  files !! py_str "image" = Some file -> filename file <> [] ->
  NamedTemporaryFile (py_str ".png") w = (Returns tmp, w1) ->
  fst (extract_text tmp (saved file tmp w)) = Returns txt ->
  (fst (generate files w)
   = Returns (JsonError 400 (py_str "Kein Text im Bild gefunden."))
   <-> forallb isspace txt = true).
Proof.
  intros Hfile Hname Htmp Hocr.
  rewrite <- strip_nil_iff.
  rewrite (generate_upto_ocr files file w tmp w1 Hfile Hname Htmp).
  erewrite bind_returns by (apply extract_text_pair; exact Hocr).
  erewrite bind_returns.
  2:{ unfold os_unlink, saved, set_fs; cbn [fs]. rewrite lookup_insert_eq.
      reflexivity. }
  case_bool_decide as Hblank.
  - split; [intros _; assumption|reflexivity].
  - split; [|contradiction]. intros Hjson. exfalso. revert Hjson. cbv zeta.
    apply bind_never_returns. intros nlp w2.
    apply bind_never_returns. intros ws w3.
    apply bind_never_returns. intros poem_lines w4.
    discriminate.
Qed.

Lemma generate_blank_text_iff_witness :
  fst (@generate Latin1.db toy_collaborators
         (toy_request (py_str "   ")) empty_world)
  = Returns (JsonError 400 (py_str "Kein Text im Bild gefunden."))
  <-> forallb (@isspace Latin1.db) (py_str "   ") = true.
Proof.
  apply (@generate_blank_text_iff Latin1.db toy_collaborators
           (toy_request (py_str "   "))
           (Upload (py_str "shot.png") (py_str "   ")) empty_world
           (set_fs {[ py_str "/tmp/tmp.png" := [] ]} empty_world)
           (py_str "/tmp/tmp.png") (py_str "   ")).
  - vm_compute. reflexivity.
  - vm_compute. discriminate.
  - vm_compute. reflexivity.
  - vm_compute. reflexivity.
Defined.

(** ** [assemble_poem]: no word is used too often *)

Lemma concat_chunks (n : nat) (p : list str) : forall count,
  concat (map (chunk n p) (seq 0 count)) = take (count * n) p.
Proof.
  induction count as [|count IH]; [reflexivity|].
  rewrite seq_S, map_app, concat_app, IH. cbn [map concat plus].
  rewrite app_nil_r. unfold chunk. rewrite take_take_drop. f_equal. lia.
Qed.

(** X21.  When the word list holds at least two words per line, the words
    of all the lines together are the first [lines * segment_size] words
    of the shuffled list: no word is used more often in the poem than it
    occurs in the word list, and when [lines * segment_size] is the size
    of the list, the poem uses every word exactly as often as it occurs. *)
Theorem assemble_poem_uses_words_once words ws lines w :
  heap w !! words = Some ws -> 0 < lines -> 2 * lines <= len ws ->
  exists segments : list (list str),
    fst (assemble_poem words lines w) = Returns (join (py_str " ") <$> segments)
    /\ length segments = Z.to_nat lines
    /\ concat segments ⊆+ ws
    /\ (lines * clamped_quotient (len ws) lines = len ws ->
        concat segments ≡ₚ ws).
Proof.
  destruct w as [h g f o e]; cbn [heap]. intros Hw Hlines Hmany.
  set (n := Z.to_nat (clamped_quotient (len ws) lines)).
  set (p := shuffled g ws).
  pose proof (segment_size_of_bounds (len ws) lines) as Hseg.
  rewrite segment_size_of_clamped in Hseg.
  assert (Hne : ws <> []).
  { intros Heq. rewrite Heq in Hmany. unfold len in Hmany. simpl in Hmany. lia. }
  assert (Hfit : (Z.to_nat lines * n <= length p)%nat).
  { assert (Hq : 2 <= len ws / lines) by (apply Z.div_le_lower_bound; lia).
    pose proof (Z.mul_div_le (len ws) lines Hlines) as Hdiv.
    assert (clamped_quotient (len ws) lines <= len ws / lines).
    { unfold clamped_quotient.
      destruct (Z.ltb_spec (len ws / lines) 2); [lia|].
      destruct (Z.ltb_spec 5 (len ws / lines)); lia. }
    unfold p. rewrite shuffled_length. unfold n, len in *. nia. }
  exists (map (chunk n p) (seq 0 (Z.to_nat lines))).
  split; [|split; [|split]].
  - rewrite (assemble_poem_run words ws lines h g f o e Hw Hne) by lia.
    rewrite segment_size_of_clamped.
    replace (clamped_quotient (len ws) lines) with (Z.of_nat n)
      by (unfold n; lia).
    unfold first_state. fold p. change 0 with (Z.of_nat (0 * n)).
    rewrite (lines_from_chunks p _ n) by (unfold n in *; lia).
    cbn [fst written app]. f_equal.
    generalize (seq 0 (Z.to_nat lines)). intros js.
    induction js as [|j js IH]; [reflexivity|].
    cbn [map]. rewrite fmap_cons. now f_equal.
  - now rewrite length_map, length_seq.
  - rewrite concat_chunks. rewrite <- (shuffled_perm g ws). fold p.
    apply sublist_submseteq, sublist_take.
  - intros Hall. rewrite concat_chunks.
    rewrite take_ge; [apply shuffled_perm|].
    unfold p. rewrite shuffled_length. unfold n, len in *. nia.
Qed.

Lemma assemble_poem_uses_words_once_witness :
  let ws := [py_str "Haus"; py_str "Baum"; py_str "laufen"; py_str "sehen"] in
  exists segments : list (list str),
    fst (assemble_poem 0%nat 2 (sample_world ws))
    = Returns (join (py_str " ") <$> segments)
    /\ length segments = Z.to_nat 2
    /\ concat segments ⊆+ ws
    /\ (2 * clamped_quotient (len ws) 2 = len ws -> concat segments ≡ₚ ws).
Proof.
  apply (assemble_poem_uses_words_once 0%nat
           [py_str "Haus"; py_str "Baum"; py_str "laufen"; py_str "sehen"] 2
           (sample_world [py_str "Haus"; py_str "Baum"; py_str "laufen";
                          py_str "sehen"])).
  - reflexivity.
  - lia.
  - vm_compute. discriminate.
Defined.

(** ** [extract_text]: failures that are no [Exception] *)

(** X22.  [extract_text] wraps only what [except Exception] catches: a
    failure of the image library or of the OCR that is no [Exception] (an
    interrupt from the keyboard, say) leaves [extract_text] as it is, not as
    a [RuntimeError]; and on every path the state is as before. *)
Theorem extract_text_passes_interrupts {ext : Collaborators}
    (path : str) (w : world) (e : exc) :
  is_Exception e = false ->
  (fst (Image_open path w) = Raises e
   \/ exists img, fst (Image_open path w) = Returns img
                  /\ image_to_string img = Raises e) ->
  extract_text path w = (Raises e, w).
Proof.
  intros Hexc Hfail. rewrite extract_text_unfold.
  pose proof (Image_open_state path w) as Hst.
  destruct (Image_open path w) as [[img|e0] w0]; cbn [fst snd] in *; subst w0.
  - destruct Hfail as [Hopen|(img' & [= <-] & Hocr)]; [discriminate|].
    rewrite Hocr. now rewrite Hexc.
  - destruct Hfail as [[= <-]|(img' & Hopen & _)]; [|discriminate].
    now rewrite Hexc.
Qed.

Lemma extract_text_passes_interrupts_witness :
  @extract_text interrupted_collaborators (py_str "c.png")
    (one_file_world (py_str "c.png") (py_str "Der Apfel"))
  = (Raises (ForeignError false (py_str "KeyboardInterrupt")),
     one_file_world (py_str "c.png") (py_str "Der Apfel")).
Proof.
  apply (@extract_text_passes_interrupts interrupted_collaborators
           (py_str "c.png")
           (one_file_world (py_str "c.png") (py_str "Der Apfel"))
           (ForeignError false (py_str "KeyboardInterrupt"))).
  - reflexivity.
  - right. exists (py_str "Der Apfel"). split; vm_compute; reflexivity.
Defined.
